(** * config_gui.py: the serial terminal of the configuration GUI

    A shallow embedding of [ConfigGUI] (src/config_gui.py): the connection
    life cycle ([toggle_connection], [connect], [disconnect]), the
    background reader ([receive_data]) and the command dispatcher
    ([send_command]), together with the parts of Python and of pyserial the
    program calls: [str.strip], [str.rstrip], [str.endswith], the UTF-8
    codec with its error handlers, and [Serial.in_waiting], [readline],
    [write], [close]. *)

From Stdlib Require Import List String Ascii NArith ZArith Bool Lia.
From Stdlib.Strings Require Import Byte.
From Stdlib Require Import Numbers.DecimalString.
Import ListNotations.

Local Open Scope N_scope.
Local Open Scope list_scope.

(** ** Python values *)

(** A Python [str] is a sequence of Unicode code points, a [bytes] object a
    sequence of bytes. *)
Definition str := list N.
Definition bytes := list byte.

(** A literal of the source text, as a [str] and as [bytes]. *)
Definition lit (s : string) : str :=
  map N_of_ascii (list_ascii_of_string s).

Definition blit (s : string) : bytes :=
  list_byte_of_string s.

(** The line terminator ['\n'], as a code point and as a byte. *)
Definition NL : N := 10.
Definition LF : byte := x0a.

(** Exceptions the program can meet.  [SerialException] carries [str(e)]. *)
Inductive exn : Type :=
| SerialException (msg : str)
| UnicodeDecodeError
| UnicodeEncodeError
| AttributeError
| TypeError.

Inductive result (A : Type) : Type :=
| Ok (a : A)
| Raise (e : exn).
Arguments Ok {A} a.
Arguments Raise {A} e.

Definition bind {A B : Type} (r : result A) (k : A -> result B) : result B :=
  match r with
  | Ok a => k a
  | Raise e => Raise e
  end.

(** *** Whitespace, [strip], [rstrip], [endswith] *)

(** [str.isspace] for one code point: the ASCII table of CPython
    (TAB..CR, FS..US, SPACE) and the Unicode white space it lists beyond
    ASCII. *)
Definition isspace (c : N) : bool :=
  ((9 <=? c) && (c <=? 13))
  || ((28 <=? c) && (c <=? 32))
  || (c =? 0x85) || (c =? 0xA0) || (c =? 0x1680)
  || ((0x2000 <=? c) && (c <=? 0x200A))
  || (c =? 0x2028) || (c =? 0x2029) || (c =? 0x202F)
  || (c =? 0x205F) || (c =? 0x3000).

(** [s.lstrip()] *)
Fixpoint lstrip (s : str) : str :=
  match s with
  | [] => []
  | c :: s' => if isspace c then lstrip s' else s
  end.

(** [s.rstrip()]: a character is kept when it is not white space or when
    something is kept after it. *)
Fixpoint rstrip (s : str) : str :=
  match s with
  | [] => []
  | c :: s' =>
      match rstrip s' with
      | [] => if isspace c then [] else [c]
      | r => c :: r
      end
  end.

(** [s.strip()] *)
Definition strip (s : str) : str := rstrip (lstrip s).

(** [s.endswith('\n')] *)
Definition endswith_nl (s : str) : bool :=
  match rev s with
  | c :: _ => c =? NL
  | [] => false
  end.

(** Truth value of a [str] in a condition. *)
Definition truthy (s : str) : bool :=
  match s with
  | [] => false
  | _ :: _ => true
  end.

(** [str(n)] for an [int], as in an f-string. *)
Definition str_of_int (z : Z) : str :=
  lit (NilZero.string_of_int (Z.to_int z)).

(** *** The UTF-8 codec *)

Inductive error_handler : Type := Strict | Ignore.

(** What the codec does at a malformed sequence: under [Strict] it raises,
    under [Ignore] it drops the offending bytes and goes on with [k], the
    decoding of what follows them. *)
Definition on_error (errors : error_handler) (k : result str) : result str :=
  match errors with
  | Strict => Raise UnicodeDecodeError
  | Ignore => k
  end.

Definition emit (c : N) (k : result str) : result str :=
  bind k (fun s => Ok (c :: s)).

Definition is_cont (b : N) : bool := (0x80 <=? b) && (b <? 0xC0).

(** [bs.decode('utf-8', errors)], after CPython's decoder: a start byte
    below 0x80 is ASCII; 0x80..0xC1 and 0xF5..0xFF are invalid start bytes
    (one byte is in error); in a longer sequence an invalid continuation at
    position k puts the k bytes before it in error and decoding resumes at
    the offending byte; a sequence cut short by the end of the data puts all
    that is left in error.  The second byte is range-checked against
    overlong forms, surrogates and values above U+10FFFF. *)
Fixpoint utf8_decode (errors : error_handler) (bs : bytes) : result str :=
  match bs with
  | [] => Ok []
  | b0 :: r0 =>
    let ch := Byte.to_N b0 in
    if ch <? 0x80 then emit ch (utf8_decode errors r0)
    else if ch <? 0xC2 then on_error errors (utf8_decode errors r0)
    else if ch <? 0xE0 then
      match r0 with
      | [] => on_error errors (Ok [])
      | b1 :: r1 =>
        let ch2 := Byte.to_N b1 in
        if is_cont ch2
        then emit ((ch - 0xC0) * 64 + (ch2 - 0x80)) (utf8_decode errors r1)
        else on_error errors (utf8_decode errors r0)
      end
    else if ch <? 0xF0 then
      match r0 with
      | [] => on_error errors (Ok [])
      | b1 :: r1 =>
        let ch2 := Byte.to_N b1 in
        if negb (is_cont ch2)
           || (if ch2 <? 0xA0 then ch =? 0xE0 else ch =? 0xED)
        then on_error errors (utf8_decode errors r0)
        else
          match r1 with
          | [] => on_error errors (Ok [])
          | b2 :: r2 =>
            let ch3 := Byte.to_N b2 in
            if is_cont ch3
            then emit ((ch - 0xE0) * 4096 + (ch2 - 0x80) * 64 + (ch3 - 0x80))
                      (utf8_decode errors r2)
            else on_error errors (utf8_decode errors r1)
          end
      end
    else if ch <? 0xF5 then
      match r0 with
      | [] => on_error errors (Ok [])
      | b1 :: r1 =>
        let ch2 := Byte.to_N b1 in
        if negb (is_cont ch2)
           || (if ch2 <? 0x90 then ch =? 0xF0 else ch =? 0xF4)
        then on_error errors (utf8_decode errors r0)
        else
          match r1 with
          | [] => on_error errors (Ok [])
          | b2 :: r2 =>
            let ch3 := Byte.to_N b2 in
            if negb (is_cont ch3)
            then on_error errors (utf8_decode errors r1)
            else
              match r2 with
              | [] => on_error errors (Ok [])
              | b3 :: r3 =>
                let ch4 := Byte.to_N b3 in
                if is_cont ch4
                then emit ((ch - 0xF0) * 262144 + (ch2 - 0x80) * 4096
                           + (ch3 - 0x80) * 64 + (ch4 - 0x80))
                          (utf8_decode errors r3)
                else on_error errors (utf8_decode errors r2)
              end
          end
      end
    else on_error errors (utf8_decode errors r0)
  end.

Definition byte_of (n : N) : byte :=
  match Byte.of_N n with
  | Some b => b
  | None => x00
  end.

(** The UTF-8 bytes of one code point; a surrogate or a value above
    U+10FFFF has none. *)
Definition utf8_encode_char (c : N) : option bytes :=
  if c <? 0x80 then Some [byte_of c]
  else if c <? 0x800 then
    Some [byte_of (0xC0 + c / 64); byte_of (0x80 + c mod 64)]
  else if (0xD800 <=? c) && (c <? 0xE000) then None
  else if c <? 0x10000 then
    Some [byte_of (0xE0 + c / 4096); byte_of (0x80 + (c / 64) mod 64);
          byte_of (0x80 + c mod 64)]
  else if c <? 0x110000 then
    Some [byte_of (0xF0 + c / 262144); byte_of (0x80 + (c / 4096) mod 64);
          byte_of (0x80 + (c / 64) mod 64); byte_of (0x80 + c mod 64)]
  else None.

(** [s.encode('utf-8')] *)
Fixpoint utf8_encode (s : str) : result bytes :=
  match s with
  | [] => Ok []
  | c :: s' =>
      match utf8_encode_char c with
      | None => Raise UnicodeEncodeError
      | Some bs => bind (utf8_encode s') (fun r => Ok (bs ++ r))
      end
  end.

(** ** The serial port (pyserial's [serial.Serial])

    The transport is the program's external collaborator.  What the program
    can observe of it is modelled by the traffic still to come: bytes, pauses
    longer than the read timeout ([timeout=1]), and failures of the device. *)

Inductive rx_event : Type :=
| Rx (b : byte)
| Idle
| Fault (msg : str).

Record Serial : Type := mkSerial {
  port : str;
  baudrate : Z;
  timeout : Z;
  is_open : bool;
  rx : list rx_event;        (* what the device will deliver *)
  tx : bytes;                (* what has been written to it *)
  tx_fault : option str      (* the device refuses writes *)
}.

Definition set_rx (r : list rx_event) (s : Serial) : Serial :=
  mkSerial (port s) (baudrate s) (timeout s) (is_open s) r (tx s) (tx_fault s).

Definition set_tx (t : bytes) (s : Serial) : Serial :=
  mkSerial (port s) (baudrate s) (timeout s) (is_open s) (rx s) t (tx_fault s).

Definition port_not_open : exn :=
  SerialException (lit "Attempting to use a port that is not open").

(** A run of bytes arriving back to back. *)
Definition chunk (bs : bytes) : list rx_event := map Rx bs.

(** The bytes that have arrived and wait to be read. *)
Fixpoint arrived (evs : list rx_event) : N :=
  match evs with
  | Rx _ :: r => N.succ (arrived r)
  | _ => 0
  end.

(** [ser.in_waiting].  A poll that finds the line idle lets that pause
    elapse. *)
Definition in_waiting (s : Serial) : result (N * Serial) :=
  if negb (is_open s) then Raise port_not_open
  else
    match rx s with
    | Fault m :: _ => Raise (SerialException m)
    | Idle :: r => Ok (0, set_rx r s)
    | evs => Ok (arrived evs, s)
    end.

(** [readline] of [io.IOBase], which [Serial] inherits: [read(1)] again and
    again until the byte read is ['\n'] or a read times out and returns
    nothing.  The bytes consumed are gone also when a read raises. *)
Fixpoint read_until_nl (evs : list rx_event) : result bytes * list rx_event :=
  match evs with
  | [] => (Ok [], [])
  | Idle :: r => (Ok [], r)
  | Fault m :: _ => (Raise (SerialException m), evs)
  | Rx b :: r =>
      if Byte.eqb b LF then (Ok [b], r)
      else
        let '(res, r') := read_until_nl r in
        (bind res (fun l => Ok (b :: l)), r')
  end.

Definition readline (s : Serial) : result bytes * Serial :=
  if negb (is_open s) then (Raise port_not_open, s)
  else
    let '(res, r) := read_until_nl (rx s) in
    (res, set_rx r s).

(** [ser.write(data)] *)
Definition write (s : Serial) (data : bytes) : result Serial :=
  if negb (is_open s) then Raise port_not_open
  else
    match tx_fault s with
    | Some m => Raise (SerialException m)
    | None => Ok (set_tx (tx s ++ data) s)
    end.

(** [ser.close()] *)
Definition close (s : Serial) : Serial :=
  mkSerial (port s) (baudrate s) (timeout s) false (rx s) (tx s) (tx_fault s).

(** ** The window *)

(** One line of the terminal: what [log_message] inserts. *)
Record LogEntry : Type := mkLogEntry {
  timestamp : str;
  prefix : str;
  text : str
}.

(** [f"{timestamp} {prefix}{message}\n"] *)
Definition formatted_message (e : LogEntry) : str :=
  timestamp e ++ lit " " ++ prefix e ++ text e ++ [NL].

Inductive dialog : Type :=
| showwarning (title message : str)
| showerror (title message : str).

(** How a callback ends: it returns, it returns after a message box, or an
    exception leaves it. *)
Inductive outcome : Type :=
| Returned
| Showed (d : dialog)
| Uncaught (e : exn).

Record ConfigGUI : Type := mkConfigGUI {
  serial_connection : option Serial;
  is_connected : bool;
  receive_thread : option nat;
  com_port : str;
  baud_rate : Z;
  connect_btn : str;                 (* text of the button *)
  status_label : str * str;          (* text and foreground *)
  terminal : list LogEntry;
  command_var : str;
  (* the surroundings *)
  now : str;                         (* datetime.now().strftime("%H:%M:%S") *)
  threads_started : nat;             (* reader threads started so far *)
  after_queue : list (str * str);    (* root.after(0, log_message, m, prefix=p) *)
  closed_ports : list Serial;        (* transports closed and dropped *)
  after_keywords : bool              (* root.after hands keyword arguments
                                        on to the callback: tkinter of
                                        Python 3.14 and later *)
}.

Definition set_serial_connection (v : option Serial) (g : ConfigGUI) :=
  mkConfigGUI v (is_connected g) (receive_thread g) (com_port g)
    (baud_rate g) (connect_btn g) (status_label g) (terminal g)
    (command_var g) (now g) (threads_started g) (after_queue g)
    (closed_ports g) (after_keywords g).

Definition set_is_connected (v : bool) (g : ConfigGUI) :=
  mkConfigGUI (serial_connection g) v (receive_thread g) (com_port g)
    (baud_rate g) (connect_btn g) (status_label g) (terminal g)
    (command_var g) (now g) (threads_started g) (after_queue g)
    (closed_ports g) (after_keywords g).

Definition set_connect_btn (v : str) (g : ConfigGUI) :=
  mkConfigGUI (serial_connection g) (is_connected g) (receive_thread g)
    (com_port g) (baud_rate g) v (status_label g) (terminal g)
    (command_var g) (now g) (threads_started g) (after_queue g)
    (closed_ports g) (after_keywords g).

Definition set_status_label (v : str * str) (g : ConfigGUI) :=
  mkConfigGUI (serial_connection g) (is_connected g) (receive_thread g)
    (com_port g) (baud_rate g) (connect_btn g) v (terminal g)
    (command_var g) (now g) (threads_started g) (after_queue g)
    (closed_ports g) (after_keywords g).

Definition set_terminal (v : list LogEntry) (g : ConfigGUI) :=
  mkConfigGUI (serial_connection g) (is_connected g) (receive_thread g)
    (com_port g) (baud_rate g) (connect_btn g) (status_label g) v
    (command_var g) (now g) (threads_started g) (after_queue g)
    (closed_ports g) (after_keywords g).

Definition set_command_var (v : str) (g : ConfigGUI) :=
  mkConfigGUI (serial_connection g) (is_connected g) (receive_thread g)
    (com_port g) (baud_rate g) (connect_btn g) (status_label g) (terminal g)
    v (now g) (threads_started g) (after_queue g) (closed_ports g)
    (after_keywords g).

Definition set_after_queue (v : list (str * str)) (g : ConfigGUI) :=
  mkConfigGUI (serial_connection g) (is_connected g) (receive_thread g)
    (com_port g) (baud_rate g) (connect_btn g) (status_label g) (terminal g)
    (command_var g) (now g) (threads_started g) v (closed_ports g)
    (after_keywords g).

Definition set_closed_ports (v : list Serial) (g : ConfigGUI) :=
  mkConfigGUI (serial_connection g) (is_connected g) (receive_thread g)
    (com_port g) (baud_rate g) (connect_btn g) (status_label g) (terminal g)
    (command_var g) (now g) (threads_started g) (after_queue g) v
    (after_keywords g).

(** [threading.Thread(target=self.receive_data, daemon=True)] and
    [start()]: one more reader runs, and [receive_thread] names it. *)
Definition start_receive_thread (g : ConfigGUI) : ConfigGUI :=
  mkConfigGUI (serial_connection g) (is_connected g)
    (Some (S (threads_started g))) (com_port g) (baud_rate g) (connect_btn g)
    (status_label g) (terminal g) (command_var g) (now g)
    (S (threads_started g)) (after_queue g) (closed_ports g)
    (after_keywords g).

Definition set_after_keywords (v : bool) (g : ConfigGUI) :=
  mkConfigGUI (serial_connection g) (is_connected g) (receive_thread g)
    (com_port g) (baud_rate g) (connect_btn g) (status_label g) (terminal g)
    (command_var g) (now g) (threads_started g) (after_queue g)
    (closed_ports g) v.

(** The state of [__init__], on an interpreter whose [root.after] takes
    keyword arguments ([keywords]) or does not. *)
Definition init (keywords : bool) (clock : str) : ConfigGUI :=
  mkConfigGUI None false None (lit "COM9") 115200%Z (lit "Connect")
    (lit "Disconnected", lit "red") [] [] clock 0%nat [] [] keywords.

Definition INFO : str := lit "[INFO] ".

(** [log_message(message, prefix)] *)
Definition log_message (message prefix : str) (g : ConfigGUI) : ConfigGUI :=
  set_terminal (terminal g ++ [mkLogEntry (now g) prefix message]) g.

(** [root.after(0, self.log_message, message, prefix=prefix)].  From
    Python 3.14 on, [after(ms, func, *args, **kw)] queues the call for the
    main loop; before, its signature is [after(ms, func=None, *args)] and
    the keyword makes the call raise [TypeError] with nothing queued. *)
Definition root_after (message prefix : str) (g : ConfigGUI)
  : result ConfigGUI :=
  if after_keywords g
  then Ok (set_after_queue (after_queue g ++ [(message, prefix)]) g)
  else Raise TypeError.

(** The main loop runs the queued calls in the order they were queued. *)
Definition run_after (g : ConfigGUI) : ConfigGUI :=
  fold_left (fun g' mp => log_message (fst mp) (snd mp) g')
            (after_queue g) (set_after_queue [] g).

(** ** The methods of [ConfigGUI] *)

(** [disconnect] *)
Definition disconnect (g : ConfigGUI) : ConfigGUI :=
  let g1 :=
    match serial_connection g with
    | Some ser =>
        set_serial_connection None
          (set_closed_ports (closed_ports g ++ [close ser]) g)
    | None => g
    end in
  let g2 := set_is_connected false g1 in
  let g3 := set_connect_btn (lit "Connect") g2 in
  let g4 := set_status_label (lit "Disconnected", lit "red") g3 in
  log_message (lit "Disconnected") INFO g4.

(** Why the reader left its loop: the [while] condition failed, the
    [except] clause caught [e] and broke out, or [e] was not caught. *)
Inductive loop_exit : Type :=
| CondFalse
| Break (e : exn)
| Escaped (e : exn).

(** [except (serial.SerialException, UnicodeDecodeError): break] *)
Definition reader_except (e : exn) : loop_exit :=
  match e with
  | SerialException _ => Break e
  | UnicodeDecodeError => Break e
  | _ => Escaped e
  end.

(** One turn of the [while] of [receive_data], taken without the main
    thread running in between: [None] when the loop goes on.  [TypeError]
    is not among the exceptions the [except] clause names, so it leaves
    the loop and ends the thread. *)
Definition receive_iter (g : ConfigGUI) : ConfigGUI * option loop_exit :=
  if negb (is_connected g) then (g, Some CondFalse)
  else
    match serial_connection g with
    | None => (g, Some CondFalse)
    | Some ser =>
        match in_waiting ser with
        | Raise e => (g, Some (reader_except e))
        | Ok (n, ser1) =>
            let g1 := set_serial_connection (Some ser1) g in
            if n =? 0 then (g1, None)
            else
              let '(res, ser2) := readline ser1 in
              let g2 := set_serial_connection (Some ser2) g in
              match bind res (utf8_decode Ignore) with
              | Raise e => (g2, Some (reader_except e))
              | Ok data =>
                  if truthy (strip data)
                  then
                    match root_after (rstrip data) [] g2 with
                    | Ok g3 => (g3, None)
                    | Raise e => (g2, Some (reader_except e))
                    end
                  else (g2, None)
              end
        end
    end.

(** [receive_data], for at most [fuel] turns of its loop; [None] when the
    loop is still running after them. *)
Fixpoint receive_data (fuel : nat) (g : ConfigGUI)
  : ConfigGUI * option loop_exit :=
  match fuel with
  | O => (g, None)
  | S fuel' =>
      match receive_iter g with
      | (g', None) => receive_data fuel' g'
      | stopped => stopped
      end
  end.

(** [if not command.endswith('\n'): command += '\n'] *)
Definition add_newline (command : str) : str :=
  if negb (endswith_nl command) then command ++ [NL] else command.

(** [send_command] *)
Definition send_command (g : ConfigGUI) : ConfigGUI * outcome :=
  if negb (is_connected g)
  then (g, Showed (showwarning (lit "Not Connected")
                     (lit "Please connect to the device first.")))
  else
    let command := strip (command_var g) in
    if truthy command then
      let command := add_newline command in
      match serial_connection g with
      | None => (g, Uncaught AttributeError)
      | Some ser =>
          match bind (utf8_encode command) (write ser) with
          | Ok ser' =>
              let g1 := set_serial_connection (Some ser') g in
              let g2 :=
                log_message (lit "Sent: " ++ rstrip command) (lit "> ") g1 in
              (set_command_var [] g2, Returned)
          | Raise (SerialException m) =>
              (g, Showed (showerror (lit "Send Error")
                            (lit "Failed to send command: " ++ m)))
          | Raise e => (g, Uncaught e)
          end
      end
    else (g, Returned).

Section Ports.

(** [serial.Serial(port=..., baudrate=..., timeout=...)]: whether the port
    opens, and the transport it then gives, is the machine's matter. *)
Variable serial_Serial : str -> Z -> Z -> result Serial.

(** [connect] *)
Definition connect (g : ConfigGUI) : ConfigGUI * outcome :=
  match serial_Serial (com_port g) (baud_rate g) 1%Z with
  | Ok ser =>
      let g1 := set_serial_connection (Some ser) g in
      let g2 := set_is_connected true g1 in
      let g3 := set_connect_btn (lit "Disconnect") g2 in
      let g4 := set_status_label (lit "Connected", lit "green") g3 in
      let g5 := start_receive_thread g4 in
      (log_message
         (lit "Connected to " ++ com_port g ++ lit " at "
          ++ str_of_int (baud_rate g) ++ lit " baud") INFO g5,
       Returned)
  | Raise (SerialException m) =>
      (g, Showed (showerror (lit "Connection Error")
                    (lit "Failed to connect to " ++ com_port g ++ lit ": "
                     ++ m)))
  | Raise e => (g, Uncaught e)
  end.

(** [toggle_connection] *)
Definition toggle_connection (g : ConfigGUI) : ConfigGUI * outcome :=
  if negb (is_connected g) then connect g
  else (disconnect g, Returned).

End Ports.

(** ** A simulated machine *)

(** A port that opens and delivers [evs]. *)
Definition sim_port (evs : list rx_event) (p : str) (baud : Z) (t : Z)
  : result Serial :=
  Ok (mkSerial p baud t true evs [] None).

(** A window that is connected through the transport [ser], on an
    interpreter whose [root.after] takes keyword arguments. *)
Definition connected_with (ser : Serial) (cmd : str) : ConfigGUI :=
  mkConfigGUI (Some ser) true (Some 1%nat) (lit "COM9") 115200%Z
    (lit "Disconnect") (lit "Connected", lit "green") [] cmd
    (lit "12:00:00") 1%nat [] [] true.

(** The three chunks of the reader scenario. *)
Definition chunk1 : bytes := blit "AB".
Definition chunk2 : bytes := blit "C" ++ [LF].
Definition chunk3 : bytes := blit "DE" ++ [LF] ++ blit "FG" ++ [LF].

Definition three_chunks : list rx_event :=
  chunk chunk1 ++ chunk chunk2 ++ chunk chunk3.

(** The texts a state has queued for the terminal and those it shows. *)
Definition queued_texts (g : ConfigGUI) : list str :=
  map fst (after_queue g).

Definition shown_texts (g : ConfigGUI) : list str :=
  map text (terminal g).

(** What [receive_data] would report had a decode error ended it. *)
Definition left_on_decode_error (x : option loop_exit) : bool :=
  match x with
  | Some (Break UnicodeDecodeError) => true
  | Some (Escaped UnicodeDecodeError) => true
  | _ => false
  end.

(** [l1] is [l2] with some elements left out. *)
Inductive dropped_from {A : Type} : list A -> list A -> Prop :=
| dropped_nil : dropped_from [] []
| dropped_keep x l1 l2 : dropped_from l1 l2 -> dropped_from (x :: l1) (x :: l2)
| dropped_skip x l1 l2 : dropped_from l1 l2 -> dropped_from l1 (x :: l2).

(** ** Notions the properties are stated with *)

(** The result of decoding with [Ignore] is the strict decoding of the
    input with some bytes left out. *)
Definition decodes_dropped (bs : bytes) : Prop :=
  exists bs' s,
    dropped_from bs' bs /\ utf8_decode Ignore bs = Ok s
    /\ utf8_decode Strict bs' = Ok s.

(** The transport raises nothing but [SerialException]. *)
Definition is_serial_exception (e : exn) : bool :=
  match e with
  | SerialException _ => true
  | _ => false
  end.

Definition raises_serial_only {A : Type} (r : result A) : Prop :=
  match r with
  | Ok _ => True
  | Raise e => is_serial_exception e = true
  end.

(** What arrives at the port: a complete line, given without its
    terminator, or a pause longer than the read timeout. *)
Definition wire_item (it : option bytes) : list rx_event :=
  match it with
  | Some l => chunk (l ++ [LF])
  | None => [Idle]
  end.

Definition wire (items : list (option bytes)) : list rx_event :=
  flat_map wire_item items.

Definition no_newline (l : bytes) : bool :=
  forallb (fun b => negb (Byte.eqb b LF)) l.

Definition item_ok (it : option bytes) : bool :=
  match it with
  | Some l => no_newline l
  | None => true
  end.

(** [raw.decode('utf-8', errors='ignore')], which always has a value. *)
Definition decoded (raw : bytes) : str :=
  match utf8_decode Ignore raw with
  | Ok s => s
  | Raise _ => []
  end.

(** What the reader queues for one item. *)
Definition entry_of (it : option bytes) : list (str * str) :=
  match it with
  | Some l =>
      let data := decoded (l ++ [LF]) in
      if truthy (strip data) then [(rstrip data, [])] else []
  | None => []
  end.

Definition entries_of (items : list (option bytes)) : list (str * str) :=
  flat_map entry_of items.

(** The window [g] with [r] left to arrive at its transport [ser] and [q]
    queued for the main loop: all the reader ever changes. *)
Definition reader_state (g : ConfigGUI) (ser : Serial) (r : list rx_event)
  (q : list (str * str)) : ConfigGUI :=
  set_after_queue q (set_serial_connection (Some (set_rx r ser)) g).

(** The terminal lines the main loop makes of queued calls at time [t]. *)
Definition logged (t : str) (q : list (str * str)) : list LogEntry :=
  map (fun mp => mkLogEntry t (snd mp) (fst mp)) q.

(** The three chunks, as the lines they make up. *)
Definition three_lines : list (option bytes) :=
  [Some (blit "ABC"); Some (blit "DE"); Some (blit "FG")].

Definition three_entries : list (str * str) :=
  [(lit "ABC", []); (lit "DE", []); (lit "FG", [])].

Definition pauses (n : nat) : list (option bytes) := repeat None n.

(** A transport on COM9 that is open and will deliver [evs]. *)
Definition sim_serial (evs : list rx_event) : Serial :=
  mkSerial (lit "COM9") 115200%Z 1%Z true evs [] None.

(** A transport that refuses writes. *)
Definition stuck_serial : Serial :=
  mkSerial (lit "COM9") 115200%Z 1%Z true [] [] (Some (lit "Write timeout")).

(** The message boxes of [send_command]. *)
Definition not_connected_warning : dialog :=
  showwarning (lit "Not Connected")
    (lit "Please connect to the device first.").

Definition send_error (m : str) : dialog :=
  showerror (lit "Send Error") (lit "Failed to send command: " ++ m).

(** The two notices of the life cycle, as [connect] and [disconnect] log
    them from the state [g]. *)
Definition connect_notice (g : ConfigGUI) : LogEntry :=
  mkLogEntry (now g) INFO
    (lit "Connected to " ++ com_port g ++ lit " at "
     ++ str_of_int (baud_rate g) ++ lit " baud").

Definition disconnect_notice (g : ConfigGUI) : LogEntry :=
  mkLogEntry (now g) INFO (lit "Disconnected").

(** [is_connected] and [serial_connection] agree. *)
Definition coherent (g : ConfigGUI) : Prop :=
  is_connected g = match serial_connection g with
                   | Some _ => true
                   | None => false
                   end.

(** What can happen to the window: the user presses the button or sends,
    types into the entry, the reader thread takes a turn, the main loop
    runs the queued calls. *)
Inductive step (open : str -> Z -> Z -> result Serial)
  : ConfigGUI -> ConfigGUI -> Prop :=
| step_toggle g : step open g (fst (toggle_connection open g))
| step_send g : step open g (fst (send_command g))
| step_type g s : step open g (set_command_var s g)
| step_reader g : step open g (fst (receive_iter g))
| step_mainloop g : step open g (run_after g).

Inductive reachable (open : str -> Z -> Z -> result Serial)
  : ConfigGUI -> Prop :=
| reach_init keywords clock : reachable open (init keywords clock)
| reach_step g g' : reachable open g -> step open g g' -> reachable open g'.

(** ** The rest of the window

    The selection boxes of the toolbar and the fate of the window itself,
    which [on_com_port_change], [on_baud_change] and [on_closing] use. *)

Definition set_com_port (v : str) (g : ConfigGUI) :=
  mkConfigGUI (serial_connection g) (is_connected g) (receive_thread g) v
    (baud_rate g) (connect_btn g) (status_label g) (terminal g)
    (command_var g) (now g) (threads_started g) (after_queue g)
    (closed_ports g) (after_keywords g).

Definition set_baud_rate (v : Z) (g : ConfigGUI) :=
  mkConfigGUI (serial_connection g) (is_connected g) (receive_thread g)
    (com_port g) v (connect_btn g) (status_label g) (terminal g)
    (command_var g) (now g) (threads_started g) (after_queue g)
    (closed_ports g) (after_keywords g).

Record App : Type := mkApp {
  gui : ConfigGUI;
  com_var : str;           (* selection of the port box *)
  baud_var : str;          (* selection of the baud box *)
  destroyed : bool         (* root.destroy() has been called *)
}.

(** [__init__] with [create_toolbar]: the boxes show the defaults. *)
Definition app_init (keywords : bool) (clock : str) : App :=
  mkApp (init keywords clock) (com_port (init keywords clock))
    (str_of_int (baud_rate (init keywords clock))) false.

Definition with_gui (f : ConfigGUI -> ConfigGUI) (a : App) : App :=
  mkApp (f (gui a)) (com_var a) (baud_var a) (destroyed a).

(** [on_com_port_change] *)
Definition on_com_port_change (a : App) : App :=
  with_gui (set_com_port (com_var a)) a.

(** [on_closing] *)
Definition on_closing (a : App) : App :=
  mkApp (if is_connected (gui a) then disconnect (gui a) else gui a)
    (com_var a) (baud_var a) true.

(** What the user and the machine do to the window: the two buttons (the
    Return key sends too), typing, the two selection boxes, the close
    button, a turn of the reader thread, the main loop running the queued
    calls. *)
Inductive event : Type :=
| PressConnect
| PressSend
| TypeText (s : str)
| SelectPort (s : str)
| SelectBaud (s : str)
| CloseWindow
| ReaderTurn
| RunQueued.

Section Events.

Variable serial_Serial : str -> Z -> Z -> result Serial.

(** [int(s)]: the number, or [None] for [ValueError]. *)
Variable py_int : str -> option Z.

(** [on_baud_change] *)
Definition on_baud_change (a : App) : App :=
  match py_int (baud_var a) with
  | Some n => with_gui (set_baud_rate n) a
  | None => a
  end.

(** The callback bound to an event; a destroyed window takes none. *)
Definition handle (ev : event) (a : App) : App :=
  if destroyed a then a
  else
    match ev with
    | PressConnect =>
        with_gui (fun g => fst (toggle_connection serial_Serial g)) a
    | PressSend => with_gui (fun g => fst (send_command g)) a
    | TypeText s => with_gui (set_command_var s) a
    | SelectPort s =>
        on_com_port_change (mkApp (gui a) s (baud_var a) (destroyed a))
    | SelectBaud s =>
        on_baud_change (mkApp (gui a) (com_var a) s (destroyed a))
    | CloseWindow => on_closing a
    | ReaderTurn => with_gui (fun g => fst (receive_iter g)) a
    | RunQueued => with_gui run_after a
    end.

Definition run (evs : list event) (a : App) : App :=
  fold_left (fun a' ev => handle ev a') evs a.

End Events.

(** What the connection flag must agree with: the transport, the button,
    the status label, and the count of reader threads, one for each
    transport opened, of which all but the one in place are closed. *)
Definition consistent (g : ConfigGUI) : Prop :=
  coherent g
  /\ connect_btn g = (if is_connected g then lit "Disconnect"
                      else lit "Connect")
  /\ status_label g = (if is_connected g then (lit "Connected", lit "green")
                       else (lit "Disconnected", lit "red"))
  /\ threads_started g
     = (List.length (closed_ports g) + (if is_connected g then 1 else 0))%nat
  /\ Forall (fun s => is_open s = false) (closed_ports g).

(** The part of the window [consistent] speaks of. *)
Definition core (g : ConfigGUI)
  : bool * bool * str * (str * str) * nat * list Serial :=
  (is_connected g,
   match serial_connection g with Some _ => true | None => false end,
   connect_btn g, status_label g, threads_started g, closed_ports g).

(** The transport [s'] is [s] with some of its traffic read. *)
Definition same_line (s s' : Serial) : Prop :=
  port s' = port s /\ baudrate s' = baudrate s /\ is_open s' = is_open s
  /\ tx s' = tx s /\ tx_fault s' = tx_fault s.

(** An entry the reader may queue: no prefix, a text that is not empty and
    does not end in white space. *)
Definition reader_entry (mp : str * str) : Prop :=
  snd mp = [] /\ fst mp <> [] /\ rstrip (fst mp) = fst mp.

(** No failure of the device is to come. *)
Definition healthy (evs : list rx_event) : bool :=
  forallb (fun ev => match ev with Fault _ => false | _ => true end) evs.

(** A text without a newline inside. *)
Definition one_line (s : str) : bool :=
  forallb (fun c => negb (c =? NL)) s.

(** A line of ASCII bytes. *)
Definition ascii_line (l : bytes) : bool :=
  forallb (fun b => Byte.to_N b <? 0x80) l.

(** A machine on which no port opens. *)
Definition no_port (p : str) (baud t : Z) : result Serial :=
  Raise (SerialException (lit "could not open port")).

(** The message box of [connect]. *)
Definition connection_error (g : ConfigGUI) (m : str) : dialog :=
  showerror (lit "Connection Error")
    (lit "Failed to connect to " ++ com_port g ++ lit ": " ++ m).

(** A stand-in for [int] on the texts the baud box offers: runs of ASCII
    digits. *)
Fixpoint digits_value (acc : Z) (s : str) : option Z :=
  match s with
  | [] => Some acc
  | c :: s' =>
      if (48 <=? c) && (c <=? 57)
      then digits_value (10 * acc + Z.of_N (c - 48))%Z s'
      else None
  end.

Definition sim_int (s : str) : option Z :=
  match s with
  | [] => None
  | _ => digits_value 0%Z s
  end.

(** * Properties *)

(** ** White space *)

Lemma rstrip_nil_iff (s : str) : rstrip s = [] <-> forallb isspace s = true.
Proof.
  induction s as [|c s IH]; simpl.
  - tauto.
  - destruct (rstrip s) eqn:E.
    + destruct (isspace c); simpl; split; intros H; try discriminate H.
      * apply IH. reflexivity.
      * reflexivity.
    + split; intros H; [discriminate|].
      apply andb_true_iff in H. destruct H as [_ H]. apply IH in H.
      discriminate.
Qed.

Lemma lstrip_all_space (s : str) : forallb isspace s = true -> lstrip s = [].
Proof.
  induction s as [|c s IH]; simpl; [reflexivity|].
  intros H. apply andb_true_iff in H. destruct H as [Hc Hs].
  rewrite Hc. auto.
Qed.

Lemma strip_all_space (s : str) : forallb isspace s = true -> strip s = [].
Proof.
  intros H. unfold strip. rewrite lstrip_all_space by assumption. reflexivity.
Qed.

(** The last character [rstrip] keeps is not white space. *)
Lemma rstrip_last (s : str) (c : N) (r : str) :
  rev (rstrip s) = c :: r -> isspace c = false.
Proof.
  revert c r. induction s as [|a s IH]; simpl; intros c r H.
  - discriminate.
  - destruct (rstrip s) as [|b t] eqn:E.
    + destruct (isspace a) eqn:Ea; simpl in H; [discriminate|].
      injection H as <- _. exact Ea.
    + simpl in H. simpl in IH.
      destruct (rev t ++ [b]) as [|c' r'] eqn:E'.
      * destruct (rev t); discriminate.
      * simpl in H. injection H as <- _. apply (IH c' r'). reflexivity.
Qed.

Lemma rstrip_app_space (s : str) (c : N) :
  isspace c = true -> rstrip (s ++ [c]) = rstrip s.
Proof.
  intros Hc. induction s as [|a s IH]; simpl.
  - rewrite Hc. reflexivity.
  - rewrite IH. reflexivity.
Qed.

Lemma rstrip_idem (s : str) : rstrip (rstrip s) = rstrip s.
Proof.
  induction s as [|a s IH]; simpl; [reflexivity|].
  destruct (rstrip s) as [|b t] eqn:E.
  - destruct (isspace a) eqn:Ea; simpl; [reflexivity|]. rewrite Ea. reflexivity.
  - simpl. simpl in IH. rewrite IH. reflexivity.
Qed.

(** After [strip] the text does not end in a newline, so [send_command]
    always appends one. *)
Lemma strip_no_newline (s : str) : endswith_nl (strip s) = false.
Proof.
  unfold endswith_nl, strip.
  destruct (rev (rstrip (lstrip s))) as [|c r] eqn:E; [reflexivity|].
  apply rstrip_last in E.
  destruct (N.eqb_spec c NL) as [->|]; [discriminate E | reflexivity].
Qed.

Lemma add_newline_strip (s : str) : add_newline (strip s) = strip s ++ [NL].
Proof.
  unfold add_newline. rewrite strip_no_newline. reflexivity.
Qed.

Lemma rstrip_add_newline (s : str) : rstrip (strip s ++ [NL]) = strip s.
Proof.
  rewrite rstrip_app_space by reflexivity.
  unfold strip. apply rstrip_idem.
Qed.

(** ** The codec under [errors='ignore'] *)

Lemma dropped_all {A : Type} (l : list A) : dropped_from [] l.
Proof. induction l; constructor; assumption. Qed.

Ltac split_decoder :=
  repeat match goal with
  | |- context [match ?r with [] => _ | _ :: _ => _ end] =>
      is_var r; destruct r as [|? ?]
  | |- context [if ?c then _ else _] => destruct c eqn:?
  end.

Ltac use_conditions :=
  repeat match goal with
  | H : _ = true |- _ => rewrite H
  | H : _ = false |- _ => rewrite H
  end.

Ltac skip_to tac := first [tac | apply dropped_skip; skip_to tac].

(** One leaf of the decoder: the data ended, bytes were dropped, or a code
    point was produced from the bytes in front of [r]. *)
Ltac decoder_leaf IH :=
  cbn [on_error];
  match goal with
  | |- exists _ _, _ /\ Ok [] = _ /\ _ =>
      exists [], []; repeat split; apply dropped_all
  | |- exists _ _, _ /\ utf8_decode Ignore ?r = _ /\ _ =>
      let bs' := fresh "bs'" in
      let s := fresh "s" in
      destruct (IH r) as (bs' & s & ? & ? & ?); [simpl in *; lia|];
      exists bs', s; repeat split;
      [skip_to ltac:(assumption) | assumption | assumption]
  | |- exists _ _, dropped_from _ ?l
                   /\ emit ?c (utf8_decode Ignore ?r) = _ /\ _ =>
      let bs' := fresh "bs'" in
      let s := fresh "s" in
      let Hd := fresh "Hd" in
      let Hi := fresh "Hi" in
      let Hs := fresh "Hs" in
      destruct (IH r) as (bs' & s & Hd & Hi & Hs); [simpl in *; lia|];
      match l with
      | ?a :: r => exists (a :: bs'), (c :: s)
      | ?a :: ?b :: r => exists (a :: b :: bs'), (c :: s)
      | ?a :: ?b :: ?d :: r => exists (a :: b :: d :: bs'), (c :: s)
      | ?a :: ?b :: ?d :: ?e :: r =>
          exists (a :: b :: d :: e :: bs'), (c :: s)
      end;
      repeat split;
      [repeat apply dropped_keep; exact Hd
      | rewrite Hi; reflexivity
      | cbn [utf8_decode]; use_conditions; rewrite Hs; reflexivity]
  end.

Lemma utf8_decode_ignore_bounded (n : nat) (bs : bytes) :
  (List.length bs <= n)%nat -> decodes_dropped bs.
Proof.
  revert bs. induction n as [|n IH]; intros bs Hlen.
  - destruct bs; [|simpl in Hlen; lia].
    exists [], []. repeat split; constructor.
  - destruct bs as [|b0 r0]; [exists [], []; repeat split; constructor|].
    unfold decodes_dropped. cbn [utf8_decode].
    split_decoder; decoder_leaf IH.
Qed.

Lemma utf8_decode_ignore_drops (bs : bytes) : decodes_dropped bs.
Proof. apply (utf8_decode_ignore_bounded (List.length bs)). lia. Qed.

Lemma utf8_decode_ignore_total (bs : bytes) :
  exists s, utf8_decode Ignore bs = Ok s.
Proof.
  destruct (utf8_decode_ignore_drops bs) as (_ & s & _ & H & _).
  exists s. exact H.
Qed.

(** ** The exceptions of the transport *)

Lemma in_waiting_raises (s : Serial) : raises_serial_only (in_waiting s).
Proof.
  unfold in_waiting. destruct (is_open s); simpl; [|reflexivity].
  destruct (rx s) as [|[b| |m] r]; simpl; auto.
Qed.

Lemma read_until_nl_raises (evs : list rx_event) :
  raises_serial_only (fst (read_until_nl evs)).
Proof.
  induction evs as [|[b| |m] r IH]; simpl; auto.
  destruct (Byte.eqb b LF); simpl; auto.
  destruct (read_until_nl r) as [[l|e] r']; simpl in *; auto.
Qed.

Lemma readline_raises (s : Serial) : raises_serial_only (fst (readline s)).
Proof.
  unfold readline. destruct (is_open s); simpl; [|reflexivity].
  pose proof (read_until_nl_raises (rx s)) as H.
  destruct (read_until_nl (rx s)) as [res r]. exact H.
Qed.

Lemma reader_except_serial (e : exn) :
  is_serial_exception e = true ->
  left_on_decode_error (Some (reader_except e)) = false.
Proof. destruct e; simpl; intros H; try discriminate H; reflexivity. Qed.

Lemma receive_iter_no_decode_exit (g : ConfigGUI) :
  left_on_decode_error (snd (receive_iter g)) = false.
Proof.
  unfold receive_iter.
  destruct (is_connected g); simpl; [|reflexivity].
  destruct (serial_connection g) as [ser|]; [|reflexivity].
  pose proof (in_waiting_raises ser) as Hw.
  destruct (in_waiting ser) as [[n ser1]|e]; simpl in Hw.
  - destruct (n =? 0); [reflexivity|].
    pose proof (readline_raises ser1) as Hr.
    destruct (readline ser1) as [[raw|e] ser2]; simpl in Hr |- *.
    + destruct (utf8_decode_ignore_total raw) as [data ->].
      destruct (truthy (strip data)); [|reflexivity].
      unfold root_after. destruct (after_keywords _); reflexivity.
    + apply reader_except_serial. exact Hr.
  - apply reader_except_serial. exact Hw.
Qed.

Lemma receive_data_no_decode_exit (fuel : nat) (g : ConfigGUI) :
  left_on_decode_error (snd (receive_data fuel g)) = false.
Proof.
  revert g. induction fuel as [|fuel IH]; intros g; simpl; [reflexivity|].
  pose proof (receive_iter_no_decode_exit g) as H.
  destruct (receive_iter g) as [g' [x|]]; [exact H | apply IH].
Qed.

(** C10. Decoding in the reader never raises: for every byte sequence,
    [decode('utf-8', errors='ignore')] returns a text, the strict decoding
    of the input with the malformed bytes left out; and however long
    [receive_data] runs, from whatever state, it is never a
    [UnicodeDecodeError] that ends its loop. *)
Theorem decode_ignore_never_raises (bs : bytes) (fuel : nat) (g : ConfigGUI) :
  (exists bs' s,
      dropped_from bs' bs /\ utf8_decode Ignore bs = Ok s
      /\ utf8_decode Strict bs' = Ok s)
  /\ left_on_decode_error (snd (receive_data fuel g)) = false.
Proof.
  split.
  - exact (utf8_decode_ignore_drops bs).
  - apply receive_data_no_decode_exit.
Qed.

(** ** The reader, turn by turn *)

Lemma reader_state_here (g : ConfigGUI) (ser : Serial) :
  serial_connection g = Some ser ->
  reader_state g ser (rx ser) (after_queue g) = g.
Proof. destruct g, ser; simpl; intros ->; reflexivity. Qed.

Lemma succ_not_zero (n : N) : (N.succ n =? 0) = false.
Proof. apply N.eqb_neq. apply N.neq_succ_0. Qed.

Lemma read_until_nl_rx (b : byte) (r : list rx_event) :
  read_until_nl (Rx b :: r)
  = if Byte.eqb b LF then (Ok [b], r)
    else let '(res, r') := read_until_nl r in
         (bind res (fun l => Ok (b :: l)), r').
Proof. reflexivity. Qed.

(** [readline] returns a complete line with its terminator and leaves what
    follows it. *)
Lemma read_until_nl_line (l : bytes) (rest : list rx_event) :
  no_newline l = true ->
  read_until_nl (chunk (l ++ [LF]) ++ rest) = (Ok (l ++ [LF]), rest).
Proof.
  induction l as [|b l IH]; intros H.
  - reflexivity.
  - simpl in H. apply andb_true_iff in H. destruct H as [Hb Hl].
    apply negb_true_iff in Hb.
    change (chunk ((b :: l) ++ [LF]) ++ rest)
      with (Rx b :: (chunk (l ++ [LF]) ++ rest)).
    rewrite read_until_nl_rx, Hb, (IH Hl). reflexivity.
Qed.

(** A failure of the device inside a line: [readline] raises, and the bytes
    it had read are lost. *)
Lemma read_until_nl_fault (l : bytes) (m : str) (rest : list rx_event) :
  no_newline l = true ->
  read_until_nl (chunk l ++ Fault m :: rest)
  = (Raise (SerialException m), Fault m :: rest).
Proof.
  induction l as [|b l IH]; intros H.
  - reflexivity.
  - simpl in H. apply andb_true_iff in H. destruct H as [Hb Hl].
    apply negb_true_iff in Hb.
    change (chunk (b :: l) ++ Fault m :: rest)
      with (Rx b :: (chunk l ++ Fault m :: rest)).
    rewrite read_until_nl_rx, Hb, (IH Hl). reflexivity.
Qed.

Section Reader.

Local Arguments read_until_nl : simpl never.

Variables (g : ConfigGUI) (ser : Serial).
Hypothesis connected : is_connected g = true.
Hypothesis opened : is_open ser = true.

Ltac enter_turn :=
  unfold receive_iter, reader_state; simpl;
  rewrite connected; simpl;
  unfold in_waiting; simpl; rewrite opened; simpl.

Ltac enter_readline :=
  rewrite succ_not_zero; unfold readline; simpl; rewrite opened; simpl.

(** One turn takes one item off the wire and queues its entry, where the
    interpreter lets it queue or there is nothing to queue. *)
Lemma receive_iter_item it rest q :
  item_ok it = true ->
  after_keywords g = true \/ entry_of it = [] ->
  receive_iter (reader_state g ser (wire_item it ++ rest) q)
  = (reader_state g ser rest (q ++ entry_of it), None).
Proof.
  intros Hok Hkw. enter_turn.
  destruct it as [l|]; simpl.
  - destruct (chunk (l ++ [LF]) ++ rest) as [|[b| |m] r] eqn:E;
      try (destruct l; discriminate E).
    enter_readline.
    rewrite <- E. rewrite (read_until_nl_line l rest Hok). simpl.
    unfold entry_of, decoded in Hkw. unfold decoded.
    destruct (utf8_decode_ignore_total (l ++ [LF])) as [data Hd].
    rewrite Hd in Hkw |- *.
    destruct (truthy (strip data)).
    + unfold root_after. simpl. destruct Hkw as [Hkw|Hkw]; [|discriminate Hkw].
      rewrite Hkw. destruct g, ser; reflexivity.
    + rewrite app_nil_r. destruct g, ser; reflexivity.
  - rewrite app_nil_r. destruct g, ser; reflexivity.
Qed.

(** Where the interpreter refuses the keyword, the first line that is not
    blank ends the thread: [TypeError] leaves the loop, the line is read
    and nothing is queued. *)
Lemma receive_iter_refused l rest q :
  no_newline l = true ->
  after_keywords g = false ->
  entry_of (Some l) <> [] ->
  receive_iter (reader_state g ser (chunk (l ++ [LF]) ++ rest) q)
  = (reader_state g ser rest q, Some (Escaped TypeError)).
Proof.
  intros Hok Hkw Hne. enter_turn.
  destruct (chunk (l ++ [LF]) ++ rest) as [|[b| |m] r] eqn:E;
    try (destruct l; discriminate E).
  enter_readline.
  rewrite <- E. rewrite (read_until_nl_line l rest Hok). simpl.
  unfold entry_of, decoded in Hne.
  destruct (utf8_decode_ignore_total (l ++ [LF])) as [data Hd].
  rewrite Hd in Hne |- *.
  destruct (truthy (strip data)); [|exfalso; apply Hne; reflexivity].
  unfold root_after. simpl. rewrite Hkw. destruct g, ser; reflexivity.
Qed.

(** With nothing on the wire a turn changes nothing. *)
Lemma receive_iter_quiet q :
  receive_iter (reader_state g ser [] q) = (reader_state g ser [] q, None).
Proof. enter_turn. destruct g, ser; reflexivity. Qed.

(** At a failure of the device the turn breaks out of the loop. *)
Lemma receive_iter_fault l m rest q :
  no_newline l = true ->
  receive_iter (reader_state g ser (chunk l ++ Fault m :: rest) q)
  = (reader_state g ser (Fault m :: rest) q,
     Some (Break (SerialException m))).
Proof.
  intros Hok. enter_turn.
  destruct (chunk l ++ Fault m :: rest) as [|[b| |m'] r] eqn:E.
  - destruct l; discriminate E.
  - enter_readline.
    rewrite <- E. rewrite (read_until_nl_fault l m rest Hok). simpl.
    destruct g, ser; reflexivity.
  - destruct l; discriminate E.
  - destruct l; [|discriminate E]. simpl in E. injection E as -> ->.
    reflexivity.
Qed.

Lemma receive_data_quiet q fuel :
  receive_data fuel (reader_state g ser [] q)
  = (reader_state g ser [] q, None).
Proof.
  induction fuel as [|fuel IH]; simpl; [reflexivity|].
  rewrite receive_iter_quiet. exact IH.
Qed.

Lemma may_queue_cons it items :
  after_keywords g = true \/ entries_of (it :: items) = [] ->
  (after_keywords g = true \/ entry_of it = [])
  /\ (after_keywords g = true \/ entries_of items = []).
Proof.
  intros [H|H]; [auto|].
  unfold entries_of in H. simpl in H. apply app_eq_nil in H.
  destruct H as [H1 H2]. auto.
Qed.

(** As many turns as there are items take them all. *)
Lemma receive_data_items items rest q fuel :
  forallb item_ok items = true ->
  after_keywords g = true \/ entries_of items = [] ->
  receive_data (List.length items + fuel)
    (reader_state g ser (wire items ++ rest) q)
  = receive_data fuel (reader_state g ser rest (q ++ entries_of items)).
Proof.
  revert q. induction items as [|it items IH]; intros q Hok Hkw.
  - simpl. rewrite app_nil_r. reflexivity.
  - simpl in Hok. apply andb_true_iff in Hok. destruct Hok as [Hit Hok].
    destruct (may_queue_cons it items Hkw) as [Hk1 Hk2].
    cbn [List.length Nat.add receive_data wire flat_map].
    rewrite <- app_assoc. rewrite (receive_iter_item it _ q Hit Hk1).
    fold (wire items). rewrite (IH _ Hok Hk2).
    unfold entries_of. simpl. rewrite app_assoc. reflexivity.
Qed.

(** After [fuel] turns the reader has taken the first [fuel] items, and it
    is still running. *)
Lemma receive_data_wire fuel items q :
  forallb item_ok items = true ->
  after_keywords g = true \/ entries_of items = [] ->
  receive_data fuel (reader_state g ser (wire items) q)
  = (reader_state g ser (wire (skipn fuel items))
       (q ++ entries_of (firstn fuel items)), None).
Proof.
  revert items q. induction fuel as [|fuel IH]; intros items q Hok Hkw.
  - simpl. rewrite app_nil_r. reflexivity.
  - destruct items as [|it items].
    + change (wire []) with (@nil rx_event).
      rewrite receive_data_quiet. simpl. rewrite app_nil_r. reflexivity.
    + simpl in Hok. apply andb_true_iff in Hok. destruct Hok as [Hit Hok].
      destruct (may_queue_cons it items Hkw) as [Hk1 Hk2].
      cbn [receive_data wire flat_map skipn firstn].
      rewrite (receive_iter_item it _ q Hit Hk1).
      fold (wire items). rewrite (IH items _ Hok Hk2).
      unfold entries_of. simpl. rewrite app_assoc. reflexivity.
Qed.

(** A failure of the device after [items] ends the loop at the next
    turn. *)
Lemma receive_data_fault items l m rest q fuel :
  forallb item_ok items = true ->
  after_keywords g = true \/ entries_of items = [] ->
  no_newline l = true ->
  (List.length items < fuel)%nat ->
  receive_data fuel
    (reader_state g ser (wire items ++ chunk l ++ Fault m :: rest) q)
  = (reader_state g ser (Fault m :: rest) (q ++ entries_of items),
     Some (Break (SerialException m))).
Proof.
  intros Hok Hkw Hl Hfuel.
  replace fuel with (List.length items + S (fuel - S (List.length items)))%nat
    by lia.
  rewrite (receive_data_items items _ q _ Hok Hkw).
  cbn [receive_data]. rewrite (receive_iter_fault l m rest _ Hl). reflexivity.
Qed.

(** Where the interpreter refuses the keyword, the loop ends at the first
    line that is not blank, with nothing queued. *)
Lemma receive_data_refused items l rest q fuel :
  forallb item_ok items = true ->
  entries_of items = [] ->
  no_newline l = true ->
  after_keywords g = false ->
  entry_of (Some l) <> [] ->
  (List.length items < fuel)%nat ->
  receive_data fuel
    (reader_state g ser (wire items ++ chunk (l ++ [LF]) ++ rest) q)
  = (reader_state g ser rest q, Some (Escaped TypeError)).
Proof.
  intros Hok Hblank Hl Hkw Hne Hfuel.
  replace fuel with (List.length items + S (fuel - S (List.length items)))%nat
    by lia.
  rewrite (receive_data_items items _ q _ Hok (or_intror Hblank)).
  rewrite Hblank, app_nil_r.
  cbn [receive_data]. rewrite (receive_iter_refused l rest _ Hl Hkw Hne).
  reflexivity.
Qed.

End Reader.

(** All the reader changes of the window is the transport and the queue of
    the main loop. *)
Lemma receive_iter_frame (g : ConfigGUI) :
  exists sc q,
    fst (receive_iter g) = set_after_queue q (set_serial_connection sc g).
Proof.
  unfold receive_iter.
  destruct (is_connected g); simpl;
    [|exists (serial_connection g), (after_queue g); destruct g; reflexivity].
  destruct (serial_connection g) as [ser|] eqn:Es;
    [|exists None, (after_queue g); destruct g; simpl in *; subst;
      reflexivity].
  destruct (in_waiting ser) as [[n ser1]|e];
    [|exists (Some ser), (after_queue g); destruct g; simpl in *; subst;
      reflexivity].
  destruct (n =? 0); [exists (Some ser1), (after_queue g); reflexivity|].
  destruct (readline ser1) as [res ser2].
  destruct (bind res (utf8_decode Ignore)) as [data|e].
  - destruct (truthy (strip data)); simpl.
    + unfold root_after. destruct (after_keywords _); simpl.
      * eexists _, _. reflexivity.
      * exists (Some ser2), (after_queue g). reflexivity.
    + exists (Some ser2), (after_queue g). reflexivity.
  - exists (Some ser2), (after_queue g). reflexivity.
Qed.

Lemma receive_data_frame (fuel : nat) (g : ConfigGUI) :
  exists sc q,
    fst (receive_data fuel g) = set_after_queue q (set_serial_connection sc g).
Proof.
  revert g. induction fuel as [|fuel IH]; intros g; simpl.
  - exists (serial_connection g), (after_queue g). destruct g; reflexivity.
  - destruct (receive_iter_frame g) as (sc & q & Hf).
    destruct (receive_iter g) as [g' [x|]]; simpl in Hf.
    + exists sc, q. exact Hf.
    + destruct (IH g') as (sc' & q' & Hf'). rewrite Hf', Hf.
      exists sc', q'. reflexivity.
Qed.

(** ** The main loop *)

Lemma fold_log_terminal (q : list (str * str)) (g : ConfigGUI) :
  terminal (fold_left (fun g' mp => log_message (fst mp) (snd mp) g') q g)
  = terminal g ++ logged (now g) q.
Proof.
  revert g. induction q as [|mp q IH]; intros g; simpl.
  - rewrite app_nil_r. reflexivity.
  - rewrite IH. simpl. rewrite <- app_assoc. reflexivity.
Qed.

Lemma run_after_terminal (g : ConfigGUI) :
  terminal (run_after g) = terminal g ++ logged (now g) (after_queue g).
Proof. unfold run_after. rewrite fold_log_terminal. reflexivity. Qed.

(** ** Lines and pauses on the wire *)

Lemma wire_app (a b : list (option bytes)) : wire (a ++ b) = wire a ++ wire b.
Proof. unfold wire. apply flat_map_app. Qed.

Lemma entries_of_app (a b : list (option bytes)) :
  entries_of (a ++ b) = entries_of a ++ entries_of b.
Proof. unfold entries_of. apply flat_map_app. Qed.

Lemma wire_pauses (n : nat) : wire (pauses n) = repeat Idle n.
Proof. induction n; simpl; [reflexivity|]. f_equal. exact IHn. Qed.

Lemma pauses_ok (n : nat) : forallb item_ok (pauses n) = true.
Proof. induction n; simpl; auto. Qed.

Lemma firstn_pauses (k n : nat) : firstn k (pauses n) = pauses (Nat.min k n).
Proof.
  unfold pauses. revert n. induction k; intros [|n]; simpl; try reflexivity.
  f_equal. apply IHk.
Qed.

Lemma skipn_pauses (k n : nat) : skipn k (pauses n) = pauses (n - k).
Proof.
  unfold pauses. revert n. induction k; intros [|n]; simpl; try reflexivity.
  apply IHk.
Qed.

Lemma entries_of_pauses (n : nat) : entries_of (pauses n) = [].
Proof. induction n; simpl; auto. Qed.

Lemma three_lines_entries : entries_of three_lines = three_entries.
Proof. vm_compute. reflexivity. Qed.

Lemma padded_ok (i j : nat) :
  forallb item_ok (pauses i ++ three_lines ++ pauses j) = true.
Proof. rewrite !forallb_app, !pauses_ok. reflexivity. Qed.

Lemma padded_wire (i j : nat) :
  wire (pauses i ++ three_lines ++ pauses j)
  = repeat Idle i ++ three_chunks ++ repeat Idle j.
Proof. rewrite !wire_app, !wire_pauses. reflexivity. Qed.

Lemma padded_firstn (i j fuel : nat) :
  (i + 3 <= fuel)%nat ->
  entries_of (firstn fuel (pauses i ++ three_lines ++ pauses j))
  = three_entries.
Proof.
  intros H.
  assert (Hi : List.length (pauses i) = i) by apply repeat_length.
  rewrite firstn_app, Hi. rewrite (firstn_all2 (pauses i)) by lia.
  rewrite firstn_app. rewrite (firstn_all2 three_lines) by (simpl; lia).
  rewrite firstn_pauses, !entries_of_app, !entries_of_pauses.
  rewrite three_lines_entries. rewrite app_nil_r. reflexivity.
Qed.

Lemma padded_skipn (i j fuel : nat) :
  (i + 3 <= fuel)%nat ->
  wire (skipn fuel (pauses i ++ three_lines ++ pauses j))
  = repeat Idle (j - (fuel - i - 3)).
Proof.
  intros H.
  assert (Hi : List.length (pauses i) = i) by apply repeat_length.
  rewrite skipn_app, Hi. rewrite (skipn_all2 (pauses i)) by lia.
  rewrite skipn_app. rewrite (skipn_all2 three_lines) by (simpl; lia).
  simpl. rewrite skipn_pauses, wire_pauses. reflexivity.
Qed.

(** A pause longer than the timeout inside a line makes [readline] return
    the fragment read so far, and the reader queues it as a line of its
    own. *)
Example reader_pause_inside_line :
  queued_texts
    (fst (receive_data 4
            (connected_with
               (sim_serial (chunk chunk1 ++ [Idle] ++ chunk chunk2
                            ++ chunk chunk3)) [])))
  = [lit "AB"; lit "C"; lit "DE"; lit "FG"].
Proof. vm_compute. reflexivity. Qed.

(** ** The reader loop *)

(** C1 (as amended). On an interpreter whose [root.after] takes keyword
    arguments: when the chunks "AB", "C\n", "DE\nFG\n" arrive back to
    back, with any pauses before and after them, and the reader has run
    long enough to see them, it has queued exactly three entries with empty
    prefix, "ABC", "DE" and "FG" in this order, which the main loop appends
    to the terminal; the loop is still running and no byte is left waiting
    at the port. *)
Theorem reader_three_chunks (g : ConfigGUI) (ser : Serial) (i j fuel : nat) :
  after_keywords g = true ->
  is_connected g = true ->
  serial_connection g = Some ser ->
  is_open ser = true ->
  rx ser = repeat Idle i ++ three_chunks ++ repeat Idle j ->
  (i + 3 <= fuel)%nat ->
  snd (receive_data fuel g) = None
  /\ after_queue (fst (receive_data fuel g))
     = after_queue g ++ [(lit "ABC", []); (lit "DE", []); (lit "FG", [])]
  /\ terminal (run_after (fst (receive_data fuel g)))
     = terminal (run_after g)
       ++ [mkLogEntry (now g) [] (lit "ABC"); mkLogEntry (now g) [] (lit "DE");
           mkLogEntry (now g) [] (lit "FG")]
  /\ exists k,
       serial_connection (fst (receive_data fuel g))
       = Some (set_rx (repeat Idle k) ser).
Proof.
  intros Hkw Hc Hs Ho Hrx Hfuel.
  pose proof (receive_data_wire g ser Hc Ho fuel _ (after_queue g)
                (padded_ok i j) (or_introl Hkw)) as H.
  rewrite padded_wire, <- Hrx, (reader_state_here g ser Hs) in H.
  rewrite (padded_firstn i j fuel Hfuel), (padded_skipn i j fuel Hfuel) in H.
  rewrite H. cbn [fst snd].
  split; [reflexivity|]. split; [reflexivity|]. split.
  - rewrite !run_after_terminal. simpl.
    unfold logged. rewrite map_app, app_assoc. reflexivity.
  - eexists. reflexivity.
Qed.

Lemma reader_three_chunks_witness :
  let g :=
    connected_with
      (sim_serial (repeat Idle 2 ++ three_chunks ++ repeat Idle 1)) [] in
  snd (receive_data 7 g) = None
  /\ after_queue (fst (receive_data 7 g))
     = [(lit "ABC", []); (lit "DE", []); (lit "FG", [])]
  /\ shown_texts (run_after (fst (receive_data 7 g)))
     = [lit "ABC"; lit "DE"; lit "FG"].
Proof.
  intros g.
  destruct (reader_three_chunks g
              (sim_serial (repeat Idle 2 ++ three_chunks ++ repeat Idle 1))
              2 1 7 eq_refl eq_refl eq_refl eq_refl eq_refl ltac:(lia))
    as (H1 & H2 & H3 & _).
  unfold shown_texts. rewrite H3. repeat split; assumption.
Defined.

(** C1 (as stated) fails on either interpreter.  Where [root.after] takes
    the keyword, the reader shows "ABC", "DE" and "FG"; where it does not,
    the first line ends the thread with [TypeError] and nothing is shown.
    However long the reader runs, it never shows "ABCDE" followed by
    "FG". *)
Lemma reader_three_chunks_counterexample :
  let g := connected_with (sim_serial three_chunks) [] in
  let g0 := set_after_keywords false g in
  shown_texts (run_after (fst (receive_data 3 g)))
  = [lit "ABC"; lit "DE"; lit "FG"]
  /\ snd (receive_data 3 g0) = Some (Escaped TypeError)
  /\ shown_texts (run_after (fst (receive_data 3 g0))) = []
  /\ ~ (exists fuel,
         shown_texts (run_after (fst (receive_data fuel g)))
         = [lit "ABCDE"; lit "FG"])
  /\ ~ (exists fuel,
         shown_texts (run_after (fst (receive_data fuel g0)))
         = [lit "ABCDE"; lit "FG"]).
Proof.
  split; [vm_compute; reflexivity|].
  split; [vm_compute; reflexivity|].
  split; [vm_compute; reflexivity|].
  split.
  - intros [fuel H].
    pose proof (receive_data_wire
                  (connected_with (sim_serial three_chunks) [])
                  (sim_serial three_chunks) eq_refl eq_refl fuel three_lines
                  [] eq_refl (or_introl eq_refl)) as E.
    change (reader_state _ _ (wire three_lines) [])
      with (connected_with (sim_serial three_chunks) []) in E.
    rewrite E in H. unfold shown_texts in H. rewrite run_after_terminal in H.
    destruct fuel as [|fuel]; [discriminate H|].
    change (firstn (S fuel) three_lines)
      with (Some (blit "ABC") :: firstn fuel (tl three_lines)) in H.
    change (entries_of (Some (blit "ABC") :: firstn fuel (tl three_lines)))
      with ((lit "ABC", []) :: entries_of (firstn fuel (tl three_lines)))
      in H.
    simpl in H. injection H as H _. discriminate H.
  - intros [fuel H].
    destruct fuel as [|fuel]; [discriminate H|].
    assert (Hne : entry_of (Some (blit "ABC")) <> []) by discriminate.
    assert (Hfuel : (List.length (@nil (option bytes)) < S fuel)%nat)
      by (simpl; lia).
    pose proof (receive_data_refused
                  (set_after_keywords false
                     (connected_with (sim_serial three_chunks) []))
                  (sim_serial three_chunks) eq_refl eq_refl
                  [] (blit "ABC") (chunk chunk3) [] (S fuel)
                  eq_refl eq_refl eq_refl eq_refl Hne Hfuel) as E.
    change (reader_state _ _ (wire [] ++ _) [])
      with (set_after_keywords false
              (connected_with (sim_serial three_chunks) [])) in E.
    rewrite E in H. discriminate H.
Qed.

(** C2 (as amended). When the device fails under the reader, after any
    number of complete lines and pauses and possibly inside a line, the
    loop stops at that turn, broken by the [SerialException]; nothing else
    happens: the window stays connected, the transport stays in place and
    is not closed, button, status and terminal are as they were, and all
    that was queued are the lines read before the failure.  (For the
    reader to get as far as the failure, the lines before it were queued,
    on an interpreter whose [root.after] takes the keyword, or they were
    all blank; with no line before the failure this holds of every
    window.) *)
Theorem read_error_only_stops_reader
  (g : ConfigGUI) (ser : Serial) (items : list (option bytes)) (l : bytes)
  (m : str) (rest : list rx_event) (fuel : nat) :
  is_connected g = true ->
  serial_connection g = Some ser ->
  is_open ser = true ->
  forallb item_ok items = true ->
  after_keywords g = true \/ entries_of items = [] ->
  no_newline l = true ->
  rx ser = wire items ++ chunk l ++ Fault m :: rest ->
  (List.length items < fuel)%nat ->
  let g' := fst (receive_data fuel g) in
  snd (receive_data fuel g) = Some (Break (SerialException m))
  /\ g' = reader_state g ser (Fault m :: rest)
            (after_queue g ++ entries_of items)
  /\ is_connected g' = true
  /\ serial_connection g' = Some (set_rx (Fault m :: rest) ser)
  /\ closed_ports g' = closed_ports g
  /\ connect_btn g' = connect_btn g
  /\ status_label g' = status_label g
  /\ terminal g' = terminal g.
Proof.
  intros Hc Hs Ho Hok Hkw Hl Hrx Hfuel g'. subst g'.
  pose proof (receive_data_fault g ser Hc Ho items l m rest (after_queue g)
                fuel Hok Hkw Hl Hfuel) as H.
  rewrite <- Hrx, (reader_state_here g ser Hs) in H.
  rewrite H. cbn [fst snd]. unfold reader_state. simpl.
  repeat split; assumption.
Qed.

Lemma read_error_only_stops_reader_witness :
  let g :=
    connected_with
      (sim_serial (chunk (blit "AB") ++ [Fault (lit "device removed")])) [] in
  snd (receive_data 1 g)
  = Some (Break (SerialException (lit "device removed")))
  /\ is_connected (fst (receive_data 1 g)) = true
  /\ terminal (fst (receive_data 1 g)) = terminal g.
Proof.
  intros g.
  pose proof (read_error_only_stops_reader g
    (sim_serial (chunk (blit "AB") ++ [Fault (lit "device removed")]))
    [] (blit "AB") (lit "device removed") [] 1%nat
    eq_refl eq_refl eq_refl eq_refl (or_intror eq_refl) eq_refl eq_refl
    (le_n 1)) as H.
  cbv zeta in H. tauto.
Defined.

(** C2 (as stated) fails: after a read error the loop has stopped, yet the
    window is exactly as before, still connected, and the terminal shows no
    notice of the failure. *)
Lemma read_error_counterexample :
  let g := connected_with (sim_serial [Fault (lit "device removed")]) [] in
  receive_data 1 g
  = (g, Some (Break (SerialException (lit "device removed"))))
  /\ is_connected (fst (receive_data 1 g)) = true
  /\ shown_texts (run_after (fst (receive_data 1 g))) = [].
Proof. vm_compute. repeat split. Qed.

(** ** The command dispatcher *)

(** A command that is not blank, over a transport that takes it: the
    stripped text and one newline are written, the stripped text is logged
    behind "Sent: ", and the entry is cleared. *)
Lemma send_command_writes (g : ConfigGUI) (ser : Serial) (data : bytes) :
  is_connected g = true ->
  serial_connection g = Some ser ->
  is_open ser = true ->
  tx_fault ser = None ->
  truthy (strip (command_var g)) = true ->
  utf8_encode (strip (command_var g) ++ [NL]) = Ok data ->
  send_command g
  = (set_command_var []
       (log_message (lit "Sent: " ++ strip (command_var g)) (lit "> ")
          (set_serial_connection (Some (set_tx (tx ser ++ data) ser)) g)),
     Returned).
Proof.
  intros Hc Hs Ho Hf Ht He. unfold send_command.
  rewrite Hc, Ht, Hs. simpl.
  rewrite add_newline_strip, He. simpl.
  unfold write. rewrite Ho, Hf. simpl.
  rewrite rstrip_add_newline. reflexivity.
Qed.

(** C3 (as amended). Sending "ping" while connected, over a transport that
    takes the write, writes exactly the bytes "ping\n" and appends exactly
    one entry to the terminal, with prefix "> " and text "Sent: ping"; the
    window stays connected and the entry field is cleared. *)
Theorem send_ping (g : ConfigGUI) (ser : Serial) :
  is_connected g = true ->
  serial_connection g = Some ser ->
  is_open ser = true ->
  tx_fault ser = None ->
  strip (command_var g) = lit "ping" ->
  let g' := fst (send_command g) in
  snd (send_command g) = Returned
  /\ serial_connection g' = Some (set_tx (tx ser ++ blit "ping" ++ [LF]) ser)
  /\ terminal g'
     = terminal g ++ [mkLogEntry (now g) (lit "> ") (lit "Sent: ping")]
  /\ is_connected g' = true
  /\ command_var g' = [].
Proof.
  intros Hc Hs Ho Hf Hcmd g'. subst g'.
  rewrite (send_command_writes g ser (blit "ping" ++ [LF]) Hc Hs Ho Hf).
  - rewrite Hcmd. simpl. repeat split. exact Hc.
  - rewrite Hcmd. reflexivity.
  - rewrite Hcmd. reflexivity.
Qed.

Lemma send_ping_witness :
  let g := connected_with (sim_serial []) (lit " ping ") in
  option_map tx (serial_connection (fst (send_command g)))
  = Some (blit "ping" ++ [LF])
  /\ shown_texts (fst (send_command g)) = [lit "Sent: ping"].
Proof.
  intros g.
  pose proof (send_ping g (sim_serial []) eq_refl eq_refl eq_refl eq_refl
                eq_refl) as (_ & Hw & Ht & _).
  unfold shown_texts. rewrite Hw, Ht. split; reflexivity.
Defined.

(** C3 (as stated) fails: the bytes written are "ping\n", but the text of
    the entry is "Sent: ping", not "ping". *)
Lemma send_ping_counterexample :
  let g := connected_with (sim_serial []) (lit "ping") in
  option_map tx (serial_connection (fst (send_command g)))
  = Some (blit "ping" ++ [LF])
  /\ terminal (fst (send_command g))
     = [mkLogEntry (lit "12:00:00") (lit "> ") (lit "Sent: ping")]
  /\ shown_texts (fst (send_command g)) <> [lit "ping"].
Proof. vm_compute. repeat split. discriminate. Qed.

(** C5. Whatever the text in the entry, [send_command] while disconnected
    only shows the "Not Connected" warning: the window, its transport
    included, is left exactly as it was, so nothing is written. *)
Theorem send_while_disconnected (g : ConfigGUI) :
  is_connected g = false ->
  send_command g = (g, Showed not_connected_warning).
Proof. intros H. unfold send_command. rewrite H. reflexivity. Qed.

Lemma send_while_disconnected_witness :
  send_command (set_command_var (lit "ping") (init true (lit "12:00:00")))
  = (set_command_var (lit "ping") (init true (lit "12:00:00")),
     Showed not_connected_warning).
Proof. apply send_while_disconnected. reflexivity. Defined.

(** C6. While connected, a text that is empty or all white space makes
    [send_command] return with the window exactly as it was: nothing is
    written and nothing is logged. *)
Theorem send_blank (g : ConfigGUI) :
  is_connected g = true ->
  forallb isspace (command_var g) = true ->
  send_command g = (g, Returned).
Proof.
  intros Hc Hb. unfold send_command.
  rewrite Hc, (strip_all_space _ Hb). reflexivity.
Qed.

Lemma send_blank_witness :
  send_command (connected_with (sim_serial []) [])
  = (connected_with (sim_serial []) [], Returned)
  /\ send_command (connected_with (sim_serial []) (lit "   "))
     = (connected_with (sim_serial []) (lit "   "), Returned).
Proof. split; apply send_blank; reflexivity. Defined.

(** C7. When the write of a command fails, the failure is a
    [SerialException], [send_command] shows the "Send Error" box with its
    message, and the window is exactly as it was: still connected, the
    transport in place, nothing logged. *)
Theorem send_write_failed (g : ConfigGUI) (ser : Serial) (data : bytes)
  (e : exn) :
  is_connected g = true ->
  serial_connection g = Some ser ->
  truthy (strip (command_var g)) = true ->
  utf8_encode (add_newline (strip (command_var g))) = Ok data ->
  write ser data = Raise e ->
  exists m,
    e = SerialException m
    /\ send_command g = (g, Showed (send_error m))
    /\ is_connected (fst (send_command g)) = true
    /\ serial_connection (fst (send_command g)) = Some ser.
Proof.
  intros Hc Hs Ht He Hw.
  assert (Hm : exists m, e = SerialException m).
  { unfold write in Hw. destruct (is_open ser).
    - destruct (tx_fault ser) as [m|]; [|discriminate Hw].
      injection Hw as <-. exists m. reflexivity.
    - injection Hw as <-. eexists. reflexivity. }
  destruct Hm as [m ->]. exists m.
  assert (E : send_command g = (g, Showed (send_error m))).
  { unfold send_command. rewrite Hc, Ht, Hs. simpl. rewrite He. simpl.
    rewrite Hw. reflexivity. }
  rewrite E. simpl. auto.
Qed.

Lemma send_write_failed_witness :
  exists m,
    SerialException (lit "Write timeout") = SerialException m
    /\ send_command (connected_with stuck_serial (lit "ping"))
       = (connected_with stuck_serial (lit "ping"), Showed (send_error m))
    /\ is_connected
         (fst (send_command (connected_with stuck_serial (lit "ping"))))
       = true
    /\ serial_connection
         (fst (send_command (connected_with stuck_serial (lit "ping"))))
       = Some stuck_serial.
Proof.
  apply (send_write_failed (connected_with stuck_serial (lit "ping"))
           stuck_serial (blit "ping" ++ [LF])); reflexivity.
Defined.

(** ** The life cycle *)

Lemma disconnect_disconnected (g : ConfigGUI) :
  is_connected (disconnect g) = false
  /\ serial_connection (disconnect g) = None
  /\ connect_btn (disconnect g) = lit "Connect"
  /\ status_label (disconnect g) = (lit "Disconnected", lit "red")
  /\ terminal (disconnect g) = terminal g ++ [disconnect_notice g]
  /\ threads_started (disconnect g) = threads_started g
  /\ after_queue (disconnect g) = after_queue g.
Proof.
  unfold disconnect. destruct (serial_connection g) eqn:E; simpl;
    rewrite ?E; repeat split; reflexivity.
Qed.

Section Lifecycle.

Variable serial_Serial : str -> Z -> Z -> result Serial.

Lemma connect_opened (g : ConfigGUI) (ser : Serial) :
  serial_Serial (com_port g) (baud_rate g) 1%Z = Ok ser ->
  connect serial_Serial g
  = (log_message (text (connect_notice g)) INFO
       (start_receive_thread
          (set_status_label (lit "Connected", lit "green")
             (set_connect_btn (lit "Disconnect")
                (set_is_connected true
                   (set_serial_connection (Some ser) g))))),
     Returned).
Proof. intros H. unfold connect. rewrite H. reflexivity. Qed.

(** C4 (as amended). While the window is connected, pressing the button
    does not connect again: it disconnects.  No port is opened and no
    reader thread is started; the window becomes disconnected and one
    "Disconnected" notice is logged. *)
Theorem toggle_while_connected (g : ConfigGUI) :
  is_connected g = true ->
  toggle_connection serial_Serial g = (disconnect g, Returned)
  /\ is_connected (disconnect g) = false
  /\ serial_connection (disconnect g) = None
  /\ threads_started (disconnect g) = threads_started g
  /\ terminal (disconnect g) = terminal g ++ [disconnect_notice g].
Proof.
  intros H. unfold toggle_connection. rewrite H. simpl.
  pose proof (disconnect_disconnected g). tauto.
Qed.

(** C8 (as amended). On a window that is already disconnected,
    [disconnect] touches no transport and leaves the window disconnected,
    but it logs one more "Disconnected" notice; the button does not call
    it there, it calls [connect]. *)
Theorem disconnect_while_disconnected (g : ConfigGUI) :
  is_connected g = false ->
  serial_connection g = None ->
  disconnect g
  = log_message (lit "Disconnected") INFO
      (set_status_label (lit "Disconnected", lit "red")
         (set_connect_btn (lit "Connect") g))
  /\ is_connected (disconnect g) = false
  /\ serial_connection (disconnect g) = None
  /\ closed_ports (disconnect g) = closed_ports g
  /\ terminal (disconnect g) = terminal g ++ [disconnect_notice g]
  /\ toggle_connection serial_Serial g = connect serial_Serial g.
Proof.
  intros Hc Hs. unfold toggle_connection, disconnect. rewrite Hc, Hs. simpl.
  repeat split; try assumption.
  destruct g; simpl in *. subst. reflexivity.
Qed.

(** C9. When the port opens, [connect] followed by [disconnect], with the
    reader taking any number of turns in between, leaves the window
    disconnected without a transport, and the terminal has gained exactly
    two entries, the notice of the connection and the notice of the
    disconnection, one for each transition. *)
Theorem connect_then_disconnect (g : ConfigGUI) (ser : Serial) (turns : nat) :
  serial_Serial (com_port g) (baud_rate g) 1%Z = Ok ser ->
  let g1 := fst (connect serial_Serial g) in
  let g2 := disconnect (fst (receive_data turns g1)) in
  snd (connect serial_Serial g) = Returned
  /\ is_connected g1 = true
  /\ serial_connection g1 = Some ser
  /\ threads_started g1 = S (threads_started g)
  /\ terminal g1 = terminal g ++ [connect_notice g]
  /\ is_connected g2 = false
  /\ serial_connection g2 = None
  /\ threads_started g2 = S (threads_started g)
  /\ terminal g2 = terminal g ++ [connect_notice g; disconnect_notice g].
Proof.
  intros Hopen g1 g2. subst g2 g1.
  rewrite (connect_opened g ser Hopen). cbn [fst snd].
  set (g1 := log_message _ _ _).
  destruct (receive_data_frame turns g1) as (sc & q & Hf).
  destruct (disconnect_disconnected (fst (receive_data turns g1)))
    as (Hd1 & Hd2 & _ & _ & Hd3 & Hd4 & _).
  rewrite Hd1, Hd2, Hd3, Hd4. unfold disconnect_notice. rewrite Hf.
  subst g1. simpl. rewrite <- app_assoc. repeat split.
Qed.

(** The flag and the transport agree in every state the window can be in,
    so [send_command] never meets a missing transport while connected. *)
Lemma step_coherent (g g' : ConfigGUI) :
  coherent g -> step serial_Serial g g' -> coherent g'.
Proof.
  unfold coherent. intros Hg Hstep. destruct Hstep as [g|g|g s|g|g].
  - unfold toggle_connection.
    destruct (is_connected g) eqn:Ec; cbn [negb fst].
    + destruct (disconnect_disconnected g) as (-> & -> & _). reflexivity.
    + unfold connect.
      destruct (serial_Serial (com_port g) (baud_rate g) 1%Z) as [ser|[]];
        simpl; rewrite ?Ec; auto.
  - unfold send_command.
    destruct (is_connected g) eqn:Ec; simpl; [|rewrite Ec; exact Hg].
    destruct (truthy (strip (command_var g))); simpl; [|rewrite Ec; exact Hg].
    destruct (serial_connection g) as [ser|] eqn:Es; [|discriminate Hg].
    destruct (bind (utf8_encode (add_newline (strip (command_var g))))
                (write ser)) as [ser'|[]]; simpl; rewrite ?Ec, ?Es; auto.
  - exact Hg.
  - unfold receive_iter.
    destruct (is_connected g) eqn:Ec; simpl; [|rewrite Ec; exact Hg].
    destruct (serial_connection g) as [ser|] eqn:Es; [|discriminate Hg].
    destruct (in_waiting ser) as [[n ser1]|e]; simpl;
      [|rewrite Ec, Es; reflexivity].
    destruct (n =? 0); simpl; [exact Ec|].
    destruct (readline ser1) as [res ser2].
    destruct (bind res (utf8_decode Ignore)) as [data|e]; simpl;
      [|exact Ec].
    destruct (truthy (strip data)); simpl; [|exact Ec].
    unfold root_after. destruct (after_keywords _); simpl; exact Ec.
  - unfold run_after.
    assert (H : forall q g0,
               is_connected
                 (fold_left (fun g' mp => log_message (fst mp) (snd mp) g')
                    q g0) = is_connected g0
               /\ serial_connection
                    (fold_left (fun g' mp => log_message (fst mp) (snd mp) g')
                       q g0) = serial_connection g0).
    { induction q as [|mp q IH]; intros g0; simpl; [tauto|].
      destruct (IH (log_message (fst mp) (snd mp) g0)) as [-> ->]. tauto. }
    destruct (H (after_queue g) (set_after_queue [] g)) as [-> ->].
    exact Hg.
Qed.

Lemma reachable_coherent (g : ConfigGUI) :
  reachable serial_Serial g -> coherent g.
Proof.
  induction 1 as [clock|g g' _ IH Hstep].
  - reflexivity.
  - exact (step_coherent g g' IH Hstep).
Qed.

End Lifecycle.

Lemma toggle_while_connected_witness :
  toggle_connection (sim_port []) (connected_with (sim_serial []) [])
  = (disconnect (connected_with (sim_serial []) []), Returned)
  /\ threads_started (disconnect (connected_with (sim_serial []) [])) = 1%nat.
Proof.
  destruct (toggle_while_connected (sim_port [])
              (connected_with (sim_serial []) []) eq_refl)
    as (H1 & _ & _ & H2 & _).
  split; [exact H1 | exact H2].
Defined.

(** C4 (as stated) fails: [connect] has no guard.  Called on a connected
    window whose port opens, it returns without any error, puts a second
    transport in place and starts a second reader thread; and the button,
    pressed on a connected window, changes the state to disconnected. *)
Lemma second_connect_counterexample :
  let g := connected_with (sim_serial []) [] in
  is_connected g = true
  /\ snd (connect (sim_port []) g) = Returned
  /\ threads_started (fst (connect (sim_port []) g)) = 2%nat
  /\ fst (connect (sim_port []) g) <> g
  /\ snd (toggle_connection (sim_port []) g) = Returned
  /\ is_connected (fst (toggle_connection (sim_port []) g)) = false.
Proof.
  cbv zeta. repeat split; try reflexivity.
  intros H. apply (f_equal threads_started) in H. discriminate H.
Qed.

Lemma disconnect_while_disconnected_witness :
  terminal (disconnect (init true (lit "12:00:00")))
  = [mkLogEntry (lit "12:00:00") INFO (lit "Disconnected")]
  /\ is_connected (disconnect (init true (lit "12:00:00"))) = false.
Proof.
  destruct (disconnect_while_disconnected (sim_port [])
              (init true (lit "12:00:00")) eq_refl eq_refl)
    as (_ & H1 & _ & _ & H2 & _).
  split; [exact H2 | exact H1].
Defined.

(** C8 (as stated) fails: [disconnect] on the freshly started window, which
    is disconnected, appends a "Disconnected" entry to the empty
    terminal. *)
Lemma disconnect_twice_counterexample :
  let g := init true (lit "12:00:00") in
  is_connected g = false
  /\ serial_connection g = None
  /\ terminal g = []
  /\ terminal (disconnect g)
     = [mkLogEntry (lit "12:00:00") INFO (lit "Disconnected")]
  /\ disconnect g <> g.
Proof.
  cbv zeta. repeat split; try reflexivity.
  intros H. apply (f_equal terminal) in H. discriminate H.
Qed.

Lemma connect_then_disconnect_witness :
  let g := init true (lit "12:00:00") in
  let g2 := disconnect (fst (connect (sim_port []) g)) in
  is_connected g2 = false
  /\ shown_texts g2
     = [lit "Connected to COM9 at 115200 baud"; lit "Disconnected"].
Proof.
  destruct (connect_then_disconnect (sim_port []) (init true (lit "12:00:00"))
              (sim_serial []) 0 eq_refl)
    as (_ & _ & _ & _ & _ & H1 & _ & _ & H2).
  cbv zeta. split; [exact H1|].
  unfold shown_texts. cbn [receive_data fst] in H2. rewrite H2. reflexivity.
Defined.

(** * The rest of the program *)

Lemma consistent_core (g g' : ConfigGUI) :
  core g' = core g -> consistent g -> consistent g'.
Proof.
  unfold core, consistent, coherent.
  intros [= -> Hs -> -> -> ->]. rewrite Hs. tauto.
Qed.

Lemma in_waiting_same_line (s s' : Serial) (n : N) :
  in_waiting s = Ok (n, s') -> same_line s s'.
Proof.
  unfold in_waiting, same_line. destruct (is_open s) eqn:Eo; simpl;
    [|discriminate].
  destruct (rx s) as [|[b| |m] r]; intros [= <- <-]; simpl; auto.
Qed.

Lemma readline_same_line (s : Serial) : same_line s (snd (readline s)).
Proof.
  unfold readline, same_line. destruct (is_open s) eqn:Eo; simpl; auto.
  destruct (read_until_nl (rx s)) as [res r]. simpl. auto.
Qed.

Lemma same_line_trans (s1 s2 s3 : Serial) :
  same_line s1 s2 -> same_line s2 s3 -> same_line s1 s3.
Proof.
  unfold same_line. intros (-> & -> & -> & -> & ->) H. exact H.
Qed.

Lemma same_line_refl (s : Serial) : same_line s s.
Proof. unfold same_line. auto. Qed.

(** What one turn of the reader does to the window, whatever arrives. *)
Lemma receive_iter_effect (g : ConfigGUI) :
  exists q,
    (q = [] \/ exists mp, q = [mp] /\ reader_entry mp)
    /\ ((serial_connection g = None
         /\ fst (receive_iter g) = g)
        \/ exists ser ser',
             serial_connection g = Some ser /\ same_line ser ser'
             /\ fst (receive_iter g)
                = set_after_queue (after_queue g ++ q)
                    (set_serial_connection (Some ser') g)).
Proof.
  unfold receive_iter.
  destruct (serial_connection g) as [ser|] eqn:Es.
  2:{ exists []. split; [auto|]. left.
      destruct (is_connected g); auto. }
  assert (Hg : g = set_after_queue (after_queue g ++ [])
                     (set_serial_connection (Some ser) g)).
  { rewrite app_nil_r. destruct g; simpl in *. subst. reflexivity. }
  assert (Hq : forall sc,
             set_serial_connection sc g
             = set_after_queue (after_queue g ++ [])
                 (set_serial_connection sc g)).
  { intros sc. rewrite app_nil_r. destruct g; reflexivity. }
  destruct (is_connected g); simpl.
  2:{ exists []. split; [auto|]. right. exists ser, ser.
      split; [reflexivity|]. split; [apply same_line_refl | exact Hg]. }
  destruct (in_waiting ser) as [[n ser1]|e] eqn:Ew; simpl.
  2:{ exists []. split; [auto|]. right. exists ser, ser.
      split; [reflexivity|]. split; [apply same_line_refl | exact Hg]. }
  pose proof (in_waiting_same_line _ _ _ Ew) as L1.
  destruct (n =? 0).
  { exists []. split; [auto|]. right. exists ser, ser1.
    split; [reflexivity|]. split; [exact L1 | apply Hq]. }
  pose proof (readline_same_line ser1) as L2.
  destruct (readline ser1) as [res ser2]. simpl in L2.
  pose proof (same_line_trans _ _ _ L1 L2) as L.
  destruct (bind res (utf8_decode Ignore)) as [data|e]; simpl.
  2:{ exists []. split; [auto|]. right. exists ser, ser2.
      split; [reflexivity|]. split; [exact L | apply Hq]. }
  destruct (truthy (strip data)) eqn:Et; simpl.
  - unfold root_after. destruct (after_keywords _); simpl.
    + exists [(rstrip data, [])]. split.
      * right. eexists. split; [reflexivity|]. unfold reader_entry. simpl.
        split; [reflexivity|]. split; [|apply rstrip_idem].
        intros Hr. apply rstrip_nil_iff in Hr.
        rewrite (strip_all_space data Hr) in Et. discriminate Et.
      * right. exists ser, ser2.
        split; [reflexivity|]. split; [exact L | reflexivity].
    + exists []. split; [auto|]. right. exists ser, ser2.
      split; [reflexivity|]. split; [exact L | apply Hq].
  - exists []. split; [auto|]. right. exists ser, ser2.
    split; [reflexivity|]. split; [exact L | apply Hq].
Qed.

Lemma receive_iter_core (g : ConfigGUI) : core (fst (receive_iter g)) = core g.
Proof.
  destruct (receive_iter_effect g) as (q & _ & [[_ ->]|(s & s' & Es & _ & ->)]).
  - reflexivity.
  - unfold core. simpl. rewrite Es. reflexivity.
Qed.

Lemma send_command_core (g : ConfigGUI) : core (fst (send_command g)) = core g.
Proof.
  unfold send_command.
  destruct (is_connected g); simpl; [|reflexivity].
  destruct (truthy (strip (command_var g))); [|reflexivity].
  destruct (serial_connection g) as [ser|] eqn:Es; [|reflexivity].
  destruct (bind (utf8_encode (add_newline (strip (command_var g))))
              (write ser)) as [ser'|[]]; try reflexivity.
  unfold core. simpl. rewrite Es. reflexivity.
Qed.

Lemma fold_log_core (q : list (str * str)) (g : ConfigGUI) :
  core (fold_left (fun g' mp => log_message (fst mp) (snd mp) g') q g)
  = core g.
Proof.
  revert g. induction q as [|mp q IH]; intros g; simpl; [reflexivity|].
  rewrite IH. reflexivity.
Qed.

Lemma run_after_core (g : ConfigGUI) : core (run_after g) = core g.
Proof. unfold run_after. rewrite fold_log_core. reflexivity. Qed.

Lemma init_consistent (keywords : bool) (clock : str) :
  consistent (gui (app_init keywords clock)).
Proof.
  unfold consistent, coherent. simpl. repeat split. constructor.
Qed.

Lemma disconnect_consistent (g : ConfigGUI) :
  consistent g -> is_connected g = true -> consistent (disconnect g).
Proof.
  unfold consistent, coherent. intros (Hc & _ & _ & Ht & Hf) Hconn.
  rewrite Hconn in Hc, Ht.
  destruct (serial_connection g) as [ser|] eqn:Es; [|discriminate Hc].
  unfold disconnect. rewrite Es. simpl.
  repeat split.
  - rewrite Ht, length_app. simpl. lia.
  - apply Forall_app. split; [exact Hf|]. constructor; [reflexivity|constructor].
Qed.

Section Invariants.

Variable serial_Serial : str -> Z -> Z -> result Serial.
Variable py_int : str -> option Z.

Lemma connect_consistent (g : ConfigGUI) :
  consistent g -> is_connected g = false ->
  consistent (fst (connect serial_Serial g)).
Proof.
  intros H Hconn. unfold connect.
  destruct (serial_Serial (com_port g) (baud_rate g) 1%Z) as [ser|[]];
    try exact H.
  unfold consistent, coherent in *. destruct H as (_ & _ & _ & Ht & Hf).
  rewrite Hconn in Ht. simpl. repeat split; [lia | exact Hf].
Qed.

Lemma toggle_consistent (g : ConfigGUI) :
  consistent g -> consistent (fst (toggle_connection serial_Serial g)).
Proof.
  intros H. unfold toggle_connection.
  destruct (is_connected g) eqn:Ec; cbn [negb fst].
  - apply disconnect_consistent; assumption.
  - apply connect_consistent; assumption.
Qed.

Lemma handle_consistent (ev : event) (a : App) :
  consistent (gui a) -> consistent (gui (handle serial_Serial py_int ev a)).
Proof.
  intros H. unfold handle. destruct (destroyed a); [exact H|].
  destruct ev as [| |s|s|s| | |]; simpl.
  - apply toggle_consistent. exact H.
  - exact (consistent_core _ _ (send_command_core (gui a)) H).
  - exact H.
  - exact H.
  - unfold on_baud_change. simpl. destruct (py_int s); exact H.
  - destruct (is_connected (gui a)) eqn:Ec; [|exact H].
    apply disconnect_consistent; assumption.
  - exact (consistent_core _ _ (receive_iter_core (gui a)) H).
  - exact (consistent_core _ _ (run_after_core (gui a)) H).
Qed.

Lemma run_consistent (evs : list event) (a : App) :
  consistent (gui a) -> consistent (gui (run serial_Serial py_int evs a)).
Proof.
  revert a. induction evs as [|ev evs IH]; intros a H; simpl; [exact H|].
  apply IH. apply handle_consistent. exact H.
Qed.

(** X1. Whatever the user and the reader thread do, in whatever order,
    from the start of the program on: the connection flag is set exactly
    when a transport is in place, the button reads "Disconnect" and the
    status "Connected" in green exactly then, and the reader threads
    started are as many as the transports opened, of which all but the one
    in place have been closed. *)
Theorem window_stays_consistent
  (evs : list event) (keywords : bool) (clock : str) :
  consistent (gui (run serial_Serial py_int evs (app_init keywords clock))).
Proof. apply run_consistent. apply init_consistent. Qed.

End Invariants.

(** *** The reader, whatever arrives *)

Lemma receive_data_effect (fuel : nat) (g : ConfigGUI) :
  exists q,
    Forall reader_entry q
    /\ ((serial_connection g = None /\ fst (receive_data fuel g) = g)
        \/ exists ser ser',
             serial_connection g = Some ser /\ same_line ser ser'
             /\ fst (receive_data fuel g)
                = set_after_queue (after_queue g ++ q)
                    (set_serial_connection (Some ser') g)).
Proof.
  revert g. induction fuel as [|fuel IH]; intros g.
  - exists []. split; [constructor|]. simpl.
    destruct (serial_connection g) as [ser|] eqn:Es; [right|left; auto].
    exists ser, ser. split; [reflexivity|]. split; [apply same_line_refl|].
    rewrite app_nil_r. destruct g; simpl in *. subst. reflexivity.
  - destruct (receive_iter_effect g) as (q1 & Hq1 & Hstep).
    assert (F1 : Forall reader_entry q1).
    { destruct Hq1 as [->|(mp & -> & Hmp)];
        [constructor | constructor; [exact Hmp | constructor]]. }
    cbn [receive_data].
    destruct (receive_iter g) as [g1 [x|]] eqn:Ei; cbn [fst] in Hstep |- *.
    + exists q1. split; [exact F1 | exact Hstep].
    + destruct (IH g1) as (q2 & F2 & Hrest).
      destruct Hstep as [[Es ->]|(ser & ser1 & Es & L1 & ->)].
      * exists q2. split; [exact F2 | exact Hrest].
      * exists (q1 ++ q2). split; [apply Forall_app; auto|].
        right. destruct Hrest as [[En _]|(s & ser2 & Es2 & L2 & ->)];
          [discriminate En|].
        simpl in Es2. injection Es2 as <-.
        exists ser, ser2. split; [exact Es|].
        split; [exact (same_line_trans _ _ _ L1 L2)|].
        simpl. rewrite app_assoc. reflexivity.
Qed.

(** X2. Whatever arrives at the port, however long the reader runs, it
    only appends to the queue of the main loop, and what it appends are
    entries with empty prefix whose text is not empty and does not end in
    white space. *)
Theorem reader_queues_lines_only (fuel : nat) (g : ConfigGUI) :
  exists q,
    after_queue (fst (receive_data fuel g)) = after_queue g ++ q
    /\ Forall reader_entry q.
Proof.
  destruct (receive_data_effect fuel g)
    as (q & F & [[_ ->]|(ser & ser' & _ & _ & ->)]).
  - exists []. rewrite app_nil_r. split; [reflexivity | constructor].
  - exists q. split; [reflexivity | exact F].
Qed.

(** X3. The reader changes neither terminal, flag, button, status, entry
    nor the counts of threads and closed ports, and it neither writes to
    the transport nor closes or replaces it. *)
Theorem reader_never_writes (fuel : nat) (g : ConfigGUI) :
  let g' := fst (receive_data fuel g) in
  terminal g' = terminal g
  /\ is_connected g' = is_connected g
  /\ connect_btn g' = connect_btn g
  /\ status_label g' = status_label g
  /\ command_var g' = command_var g
  /\ threads_started g' = threads_started g
  /\ closed_ports g' = closed_ports g
  /\ match serial_connection g, serial_connection g' with
     | Some ser, Some ser' =>
         tx ser' = tx ser /\ is_open ser' = is_open ser
         /\ port ser' = port ser /\ baudrate ser' = baudrate ser
     | None, None => True
     | _, _ => False
     end.
Proof.
  cbv zeta.
  destruct (receive_data_effect fuel g)
    as (q & _ & [[Es ->]|(ser & ser' & Es & L & ->)]).
  - rewrite Es. repeat split.
  - rewrite Es. simpl. destruct L as (Hp & Hb & Ho & Ht & _).
    repeat split; assumption.
Qed.

(** X4. After [disconnect] the next turn of the reader's loop finds its
    condition false and ends it, with nothing read and nothing queued. *)
Theorem reader_stops_after_disconnect (fuel : nat) (g : ConfigGUI) :
  receive_data (S fuel) (disconnect g) = (disconnect g, Some CondFalse).
Proof.
  cbn [receive_data]. unfold receive_iter.
  destruct (disconnect_disconnected g) as (-> & _). reflexivity.
Qed.

Lemma read_until_nl_healthy (evs : list rx_event) :
  healthy evs = true ->
  exists l, fst (read_until_nl evs) = Ok l
            /\ healthy (snd (read_until_nl evs)) = true.
Proof.
  induction evs as [|[b| |m] r IH]; simpl; intros H.
  - exists []. auto.
  - destruct (Byte.eqb b LF).
    + exists [b]. auto.
    + destruct (IH H) as (l & Hl & Hh).
      destruct (read_until_nl r) as [res r']. simpl in *. subst res.
      exists (b :: l). auto.
  - exists []. auto.
  - discriminate H.
Qed.

(** X5. On an interpreter whose [root.after] takes keyword arguments:
    while the window is connected and the device does not fail, the
    reader's loop does not end, whatever bytes and pauses arrive: blank
    lines, fragments cut by the timeout and malformed UTF-8 included. *)
Theorem reader_keeps_running (fuel : nat) (g : ConfigGUI) (ser : Serial) :
  after_keywords g = true ->
  is_connected g = true ->
  serial_connection g = Some ser ->
  is_open ser = true ->
  healthy (rx ser) = true ->
  snd (receive_data fuel g) = None.
Proof.
  revert g ser. induction fuel as [|fuel IH]; intros g ser Hkw Hc Hs Ho Hh;
    [reflexivity|].
  cbn [receive_data].
  assert (Hstep : exists ser',
             receive_iter g
             = (fst (receive_iter g), None)
             /\ after_keywords (fst (receive_iter g)) = true
             /\ is_connected (fst (receive_iter g)) = true
             /\ serial_connection (fst (receive_iter g)) = Some ser'
             /\ is_open ser' = true /\ healthy (rx ser') = true).
  { unfold receive_iter. rewrite Hc, Hs. simpl.
    unfold in_waiting. rewrite Ho. simpl.
    destruct (rx ser) as [|[b| |m] r] eqn:Er.
    - exists ser. simpl. rewrite Hkw, Hc, Ho, Er. repeat split; auto.
    - rewrite succ_not_zero. unfold readline. rewrite Ho, Er. simpl negb.
      cbv iota.
      destruct (read_until_nl_healthy (Rx b :: r) Hh) as (l & Hl & Hh').
      destruct (read_until_nl (Rx b :: r)) as [res r']. simpl in Hl, Hh'.
      subst res. simpl.
      destruct (utf8_decode_ignore_total l) as [data ->].
      exists (set_rx r' ser).
      destruct (truthy (strip data)); unfold root_after; simpl;
        rewrite ?Hkw; simpl; rewrite ?Hkw, Hc, Ho; repeat split; auto.
    - exists (set_rx r ser). simpl. rewrite Hkw, Hc, Ho. simpl in Hh.
      repeat split; auto.
    - discriminate Hh. }
  destruct Hstep as (ser' & E & Hkw' & Hc' & Hs' & Ho' & Hh').
  rewrite E. exact (IH _ ser' Hkw' Hc' Hs' Ho' Hh').
Qed.

(** ** The codec, there and back *)
Lemma to_N_byte_of (n : N) : n < 256 -> Byte.to_N (byte_of n) = n.
Proof.
  intros H. unfold byte_of. destruct (Byte.of_N n) as [b|] eqn:E.
  - apply Byte.to_of_N. exact E.
  - apply Byte.of_N_None_iff in E. lia.
Qed.

Lemma is_cont_range (b : N) : 0x80 <= b < 0xC0 -> is_cont b = true.
Proof.
  intros H. unfold is_cont. apply andb_true_iff. split.
  - apply N.leb_le. lia.
  - apply N.ltb_lt. lia.
Qed.

Ltac cmp_true := match goal with
  | |- context [?a <? ?b] =>
      replace (a <? b) with true by (symmetry; apply N.ltb_lt; lia)
  end.
Ltac cmp_false := match goal with
  | |- context [?a <? ?b] =>
      replace (a <? b) with false by (symmetry; apply N.ltb_ge; lia)
  | |- context [?a =? ?b] =>
      replace (a =? b) with false by (symmetry; apply N.eqb_neq; lia)
  end.
Ltac cmp := repeat first [cmp_true | cmp_false].

Section Sequences.

Variables (h : error_handler) (rest : bytes).

Lemma decode_ascii b0 :
  to_N b0 < 0x80 ->
  utf8_decode h ([b0] ++ rest) = emit (to_N b0) (utf8_decode h rest).
Proof. intros H. cbn [app utf8_decode]. cmp. reflexivity. Qed.

Lemma decode_two b0 b1 :
  0xC2 <= to_N b0 < 0xE0 -> 0x80 <= to_N b1 < 0xC0 ->
  utf8_decode h ([b0; b1] ++ rest)
  = emit ((to_N b0 - 0xC0) * 64 + (to_N b1 - 0x80)) (utf8_decode h rest).
Proof.
  intros H0 H1. cbn [app utf8_decode]. cmp.
  rewrite (is_cont_range _ H1). reflexivity.
Qed.

Lemma decode_three b0 b1 b2 :
  0xE0 <= to_N b0 < 0xF0 -> 0x80 <= to_N b1 < 0xC0 ->
  0x80 <= to_N b2 < 0xC0 ->
  (to_N b0 = 0xE0 -> 0xA0 <= to_N b1) ->
  (to_N b0 = 0xED -> to_N b1 < 0xA0) ->
  utf8_decode h ([b0; b1; b2] ++ rest)
  = emit ((to_N b0 - 0xE0) * 4096 + (to_N b1 - 0x80) * 64 + (to_N b2 - 0x80))
      (utf8_decode h rest).
Proof.
  intros H0 H1 H2 Hlo Hhi. cbn [app utf8_decode]. cmp.
  rewrite (is_cont_range _ H1), (is_cont_range _ H2). cbn [negb orb].
  destruct (to_N b1 <? 0xA0) eqn:E.
  - apply N.ltb_lt in E.
    replace (to_N b0 =? 0xE0) with false by (symmetry; apply N.eqb_neq; lia).
    reflexivity.
  - apply N.ltb_ge in E.
    replace (to_N b0 =? 0xED) with false by (symmetry; apply N.eqb_neq; lia).
    reflexivity.
Qed.

Lemma decode_four b0 b1 b2 b3 :
  0xF0 <= to_N b0 < 0xF5 -> 0x80 <= to_N b1 < 0xC0 ->
  0x80 <= to_N b2 < 0xC0 -> 0x80 <= to_N b3 < 0xC0 ->
  (to_N b0 = 0xF0 -> 0x90 <= to_N b1) ->
  (to_N b0 = 0xF4 -> to_N b1 < 0x90) ->
  utf8_decode h ([b0; b1; b2; b3] ++ rest)
  = emit ((to_N b0 - 0xF0) * 262144 + (to_N b1 - 0x80) * 4096
          + (to_N b2 - 0x80) * 64 + (to_N b3 - 0x80))
      (utf8_decode h rest).
Proof.
  intros H0 H1 H2 H3 Hlo Hhi. cbn [app utf8_decode]. cmp.
  rewrite (is_cont_range _ H1), (is_cont_range _ H2), (is_cont_range _ H3).
  cbn [negb orb].
  destruct (to_N b1 <? 0x90) eqn:E.
  - apply N.ltb_lt in E.
    replace (to_N b0 =? 0xF0) with false by (symmetry; apply N.eqb_neq; lia).
    reflexivity.
  - apply N.ltb_ge in E.
    replace (to_N b0 =? 0xF4) with false by (symmetry; apply N.eqb_neq; lia).
    reflexivity.
Qed.

Lemma decode_encode_char_cases (c : N) :
  match utf8_encode_char c with
  | Some bc => utf8_decode h (bc ++ rest) = emit c (utf8_decode h rest)
  | None => True
  end.
Proof.
  unfold utf8_encode_char.
  pose proof (N.div_mod c 64 ltac:(lia)) as D1.
  pose proof (N.mod_lt c 64 ltac:(lia)) as M1.
  pose proof (N.div_mod (c / 64) 64 ltac:(lia)) as D2.
  pose proof (N.mod_lt (c / 64) 64 ltac:(lia)) as M2.
  pose proof (N.div_mod (c / 64 / 64) 64 ltac:(lia)) as D3.
  pose proof (N.mod_lt (c / 64 / 64) 64 ltac:(lia)) as M3.
  replace (c / 4096) with (c / 64 / 64)
    by (rewrite N.Div0.div_div; reflexivity).
  replace (c / 262144) with (c / 64 / 64 / 64)
    by (rewrite !N.Div0.div_div; reflexivity).
  generalize dependent (c / 64 / 64 / 64). intros q3.
  generalize dependent ((c / 64 / 64) mod 64). intros r3.
  generalize dependent (c / 64 / 64). intros q2.
  generalize dependent ((c / 64) mod 64). intros r2.
  generalize dependent (c / 64). intros q1.
  generalize dependent (c mod 64). intros r1.
  intros M1 D1 M2 D2 M3 D3.
  destruct (c <? 0x80) eqn:E1.
  { apply N.ltb_lt in E1.
    rewrite decode_ascii; rewrite to_N_byte_of by lia;
      [reflexivity | lia]. }
  apply N.ltb_ge in E1.
  destruct (c <? 0x800) eqn:E2.
  { apply N.ltb_lt in E2.
    rewrite decode_two; rewrite ?to_N_byte_of by lia;
      [f_equal; lia | lia | lia]. }
  apply N.ltb_ge in E2.
  destruct ((0xD800 <=? c) && (c <? 0xE000)) eqn:E3; [exact I|].
  assert (Hs : c < 0xD800 \/ 0xE000 <= c).
  { apply andb_false_iff in E3. destruct E3 as [E|E].
    - apply N.leb_gt in E. lia.
    - apply N.ltb_ge in E. lia. }
  destruct (c <? 0x10000) eqn:E4.
  { apply N.ltb_lt in E4.
    rewrite decode_three; rewrite ?to_N_byte_of by lia;
      try lia. f_equal. lia. }
  apply N.ltb_ge in E4.
  destruct (c <? 0x110000) eqn:E5; [|exact I].
  apply N.ltb_lt in E5.
  rewrite decode_four; rewrite ?to_N_byte_of by lia;
    try lia. f_equal. lia.
Qed.

Lemma decode_encode_char (c : N) (bc : bytes) :
  utf8_encode_char c = Some bc ->
  utf8_decode h (bc ++ rest) = emit c (utf8_decode h rest).
Proof.
  intros H. pose proof (decode_encode_char_cases c) as P.
  rewrite H in P. exact P.
Qed.

End Sequences.

Lemma utf8_roundtrip (h : error_handler) (s : str) (bs : bytes) :
  utf8_encode s = Ok bs -> utf8_decode h bs = Ok s.
Proof.
  revert bs. induction s as [|c s IH]; intros bs H; simpl in H.
  - injection H as <-. reflexivity.
  - destruct (utf8_encode_char c) as [bc|] eqn:Ec; [|discriminate H].
    destruct (utf8_encode s) as [r|e]; simpl in H; [|discriminate H].
    injection H as <-.
    rewrite (decode_encode_char h r c bc Ec), (IH r eq_refl). reflexivity.
Qed.



Lemma utf8_encode_app (s t : str) (a b : bytes) :
  utf8_encode s = Ok a -> utf8_encode t = Ok b ->
  utf8_encode (s ++ t) = Ok (a ++ b).
Proof.
  revert a. induction s as [|c s IH]; intros a Ha Hb; simpl in *.
  - injection Ha as <-. exact Hb.
  - destruct (utf8_encode_char c) as [bc|]; [|discriminate Ha].
    destruct (utf8_encode s) as [r|e]; simpl in Ha; [|discriminate Ha].
    injection Ha as <-. rewrite (IH r eq_refl Hb). simpl.
    rewrite app_assoc. reflexivity.
Qed.

Lemma utf8_encode_unencodable (s t : str) :
  Exists (fun c => utf8_encode_char c = None) s ->
  utf8_encode (s ++ t) = Raise UnicodeEncodeError.
Proof.
  induction 1 as [c s Hc|c s _ IH]; simpl.
  - rewrite Hc. reflexivity.
  - destruct (utf8_encode_char c); [|reflexivity]. rewrite IH. reflexivity.
Qed.

(** X6. A command that is not blank is sent as its stripped text in UTF-8
    followed by exactly one newline, whatever white space or newlines
    surrounded it in the entry; the terminal gains one entry "> Sent: "
    with the stripped text, and the entry field is cleared. *)
Theorem send_command_sends_line (g : ConfigGUI) (ser : Serial) (data : bytes) :
  is_connected g = true ->
  serial_connection g = Some ser ->
  is_open ser = true ->
  tx_fault ser = None ->
  truthy (strip (command_var g)) = true ->
  utf8_encode (strip (command_var g)) = Ok data ->
  let g' := fst (send_command g) in
  snd (send_command g) = Returned
  /\ serial_connection g' = Some (set_tx (tx ser ++ data ++ [LF]) ser)
  /\ terminal g'
     = terminal g
       ++ [mkLogEntry (now g) (lit "> ")
             (lit "Sent: " ++ strip (command_var g))]
  /\ command_var g' = []
  /\ is_connected g' = true.
Proof.
  intros Hc Hs Ho Hf Ht He g'. subst g'.
  rewrite (send_command_writes g ser (data ++ [LF]) Hc Hs Ho Hf Ht).
  - simpl. repeat split. exact Hc.
  - apply utf8_encode_app; [exact He | reflexivity].
Qed.

Lemma send_command_sends_line_witness :
  let g := connected_with (sim_serial []) (lit "  status?  ") in
  option_map tx (serial_connection (fst (send_command g)))
  = Some (blit "status?" ++ [LF])
  /\ shown_texts (fst (send_command g)) = [lit "Sent: status?"].
Proof.
  intros g.
  destruct (send_command_sends_line g (sim_serial []) (blit "status?")
              eq_refl eq_refl eq_refl eq_refl eq_refl eq_refl)
    as (_ & Hw & Ht & _).
  unfold shown_texts. rewrite Hw, Ht. split; reflexivity.
Defined.

(** X7. A command holding a code point that UTF-8 cannot encode (a lone
    surrogate) is not sent: [encode] raises [UnicodeEncodeError], which the
    [except serial.SerialException] of [send_command] does not catch;
    nothing is written or logged and the entry keeps its text. *)
Theorem send_command_unencodable (g : ConfigGUI) (ser : Serial) :
  is_connected g = true ->
  serial_connection g = Some ser ->
  Exists (fun c => utf8_encode_char c = None) (strip (command_var g)) ->
  send_command g = (g, Uncaught UnicodeEncodeError).
Proof.
  intros Hc Hs Hx. unfold send_command. rewrite Hc, Hs. simpl.
  assert (Ht : truthy (strip (command_var g)) = true)
    by (destruct Hx; reflexivity).
  rewrite Ht, add_newline_strip, (utf8_encode_unencodable _ _ Hx).
  reflexivity.
Qed.

Lemma send_command_unencodable_witness :
  send_command (connected_with (sim_serial []) [0x61; 0xD800])
  = (connected_with (sim_serial []) [0x61; 0xD800],
     Uncaught UnicodeEncodeError).
Proof.
  apply (send_command_unencodable _ (sim_serial [])); try reflexivity.
  apply Exists_cons_tl. apply Exists_cons_hd. reflexivity.
Defined.

Section Opening.

Variable serial_Serial : str -> Z -> Z -> result Serial.

(** X8. When the port cannot be opened, pressing Connect shows the
    "Connection Error" box with the port and the reason, and leaves the
    window exactly as it was: disconnected, no reader started, nothing
    logged. *)
Theorem connect_port_unavailable (g : ConfigGUI) (m : str) :
  is_connected g = false ->
  serial_Serial (com_port g) (baud_rate g) 1%Z = Raise (SerialException m) ->
  toggle_connection serial_Serial g = (g, Showed (connection_error g m)).
Proof.
  intros Hc Ho. unfold toggle_connection, connect. rewrite Hc, Ho.
  reflexivity.
Qed.

End Opening.

Lemma connect_port_unavailable_witness :
  toggle_connection no_port (init true (lit "12:00:00"))
  = (init true (lit "12:00:00"),
     Showed (connection_error (init true (lit "12:00:00"))
               (lit "could not open port"))).
Proof. apply connect_port_unavailable; reflexivity. Defined.

(** *** Echo *)

Lemma byte_not_lf (b : byte) : Byte.to_N b <> 10 -> Byte.eqb b LF = false.
Proof.
  intros H. destruct (Byte.eqb b LF) eqn:E; [|reflexivity].
  apply Byte.byte_dec_bl in E. subst b. exfalso. apply H. reflexivity.
Qed.

Lemma encode_char_no_newline_cases (c : N) :
  c <> NL ->
  match utf8_encode_char c with
  | Some bc => no_newline bc = true
  | None => True
  end.
Proof.
  intros Hc. unfold utf8_encode_char, NL in *.
  pose proof (N.mod_lt c 64 ltac:(lia)) as M1.
  pose proof (N.mod_lt (c / 64) 64 ltac:(lia)) as M2.
  pose proof (N.mod_lt (c / 4096) 64 ltac:(lia)) as M3.
  pose proof (N.Div0.div_le_upper_bound c 64 32) as U1.
  pose proof (N.Div0.div_le_upper_bound c 4096 16) as U2.
  pose proof (N.Div0.div_le_upper_bound c 262144 5) as U3.
  generalize dependent (c / 262144). intros q3.
  generalize dependent ((c / 4096) mod 64). intros r3.
  generalize dependent (c / 4096). intros q2.
  generalize dependent ((c / 64) mod 64). intros r2.
  generalize dependent (c / 64). intros q1.
  generalize dependent (c mod 64). intros r1.
  intros M1 U1 M2 U2 M3 U3.
  destruct (c <? 0x80) eqn:E1.
  { apply N.ltb_lt in E1. unfold no_newline. cbn [forallb].
    rewrite byte_not_lf by (rewrite to_N_byte_of by lia; lia). reflexivity. }
  apply N.ltb_ge in E1.
  destruct (c <? 0x800) eqn:E2.
  { apply N.ltb_lt in E2. unfold no_newline. cbn [forallb].
    rewrite !byte_not_lf by (rewrite to_N_byte_of by lia; lia). reflexivity. }
  apply N.ltb_ge in E2.
  destruct ((0xD800 <=? c) && (c <? 0xE000)); [exact I|].
  destruct (c <? 0x10000) eqn:E4.
  { apply N.ltb_lt in E4. unfold no_newline. cbn [forallb].
    rewrite !byte_not_lf by (rewrite to_N_byte_of by lia; lia). reflexivity. }
  apply N.ltb_ge in E4.
  destruct (c <? 0x110000) eqn:E5; [|exact I].
  apply N.ltb_lt in E5. unfold no_newline. cbn [forallb].
  rewrite !byte_not_lf by (rewrite to_N_byte_of by lia; lia). reflexivity.
Qed.

Lemma utf8_encode_one_line (s : str) (bs : bytes) :
  one_line s = true -> utf8_encode s = Ok bs -> no_newline bs = true.
Proof.
  revert bs. induction s as [|c s IH]; intros bs Hl He; simpl in *.
  - injection He as <-. reflexivity.
  - apply andb_true_iff in Hl. destruct Hl as [Hc Hl].
    apply negb_true_iff, N.eqb_neq in Hc.
    pose proof (encode_char_no_newline_cases c Hc) as P.
    destruct (utf8_encode_char c) as [bc|]; [|discriminate He].
    destruct (utf8_encode s) as [r|e]; simpl in He; [|discriminate He].
    injection He as <-. unfold no_newline in *. rewrite forallb_app, P.
    exact (IH r Hl eq_refl).
Qed.

Lemma lstrip_space_all (s : str) :
  forallb isspace (lstrip s) = true -> forallb isspace s = true.
Proof.
  induction s as [|c s IH]; simpl; [auto|].
  destruct (isspace c) eqn:Ec; simpl; [exact IH|].
  rewrite Ec. simpl. auto.
Qed.

Lemma strip_truthy (s : str) : rstrip s <> [] -> truthy (strip s) = true.
Proof.
  intros H. destruct (strip s) eqn:E; [|reflexivity].
  exfalso. apply H. apply rstrip_nil_iff. apply lstrip_space_all.
  apply rstrip_nil_iff. exact E.
Qed.

Lemma truthy_not_nil (s : str) : truthy s = true -> s <> [].
Proof. destruct s; [discriminate | discriminate]. Qed.

(** The line a command makes on the wire comes back as the command. *)
Lemma entry_of_command (cmd : str) (data : bytes) :
  truthy (strip cmd) = true ->
  utf8_encode (strip cmd) = Ok data ->
  entry_of (Some data) = [(strip cmd, [])].
Proof.
  intros Ht He. unfold entry_of, decoded.
  rewrite (utf8_roundtrip Ignore (strip cmd ++ [NL]) (data ++ [LF]))
    by (apply utf8_encode_app; [exact He | reflexivity]).
  rewrite rstrip_add_newline.
  rewrite strip_truthy; [reflexivity|].
  rewrite rstrip_add_newline. apply truthy_not_nil. exact Ht.
Qed.

(** X9. On an interpreter whose [root.after] takes keyword arguments:
    when the device echoes a one-line command, the next turn of the reader
    reads back exactly the line that [send_command] wrote and queues the
    stripped command with empty prefix; the texts of the terminal are then
    those it had, the "Sent: " entry, what was already queued, and the
    command itself. *)
Theorem echo_shows_command
  (g : ConfigGUI) (ser : Serial) (data : bytes) (rest : list rx_event) :
  after_keywords g = true ->
  is_connected g = true ->
  serial_connection g = Some ser ->
  is_open ser = true ->
  tx_fault ser = None ->
  truthy (strip (command_var g)) = true ->
  one_line (strip (command_var g)) = true ->
  utf8_encode (strip (command_var g)) = Ok data ->
  rx ser = chunk (data ++ [LF]) ++ rest ->
  let g1 := fst (send_command g) in
  let g2 := fst (receive_iter g1) in
  snd (receive_iter g1) = None
  /\ after_queue g2 = after_queue g ++ [(strip (command_var g), [])]
  /\ shown_texts (run_after g2)
     = shown_texts g
       ++ [lit "Sent: " ++ strip (command_var g)]
       ++ queued_texts g
       ++ [strip (command_var g)].
Proof.
  intros Hkw Hc Hs Ho Hf Ht Hl He Hrx g1 g2. subst g2 g1.
  rewrite (send_command_writes g ser (data ++ [LF]) Hc Hs Ho Hf Ht)
    by (apply utf8_encode_app; [exact He | reflexivity]).
  cbn [fst].
  set (ser1 := set_tx (tx ser ++ data ++ [LF]) ser).
  set (g1 := set_command_var [] _).
  assert (H1 : g1 = reader_state g1 ser1 (wire_item (Some data) ++ rest)
                      (after_queue g)).
  { unfold wire_item. rewrite <- Hrx.
    exact (eq_sym (reader_state_here g1 ser1 eq_refl)). }
  pose proof (receive_iter_item g1 ser1 Hc Ho (Some data) rest (after_queue g)
                (utf8_encode_one_line _ _ Hl He) (or_introl Hkw)) as E.
  rewrite <- H1 in E. rewrite E. cbn [fst snd].
  rewrite (entry_of_command _ _ Ht He).
  split; [reflexivity|]. split; [reflexivity|].
  unfold shown_texts, queued_texts. rewrite run_after_terminal. simpl.
  unfold logged. rewrite !map_app, !map_map, <- !app_assoc. reflexivity.
Qed.

Lemma echo_shows_command_witness :
  let g :=
    connected_with (sim_serial (chunk (blit "ping" ++ [LF]))) (lit "ping") in
  shown_texts (run_after (fst (receive_iter (fst (send_command g)))))
  = [lit "Sent: ping"; lit "ping"].
Proof.
  intros g.
  destruct (echo_shows_command g (sim_serial (chunk (blit "ping" ++ [LF])))
              (blit "ping") [] eq_refl eq_refl eq_refl eq_refl eq_refl eq_refl
              eq_refl eq_refl eq_refl) as (_ & _ & H).
  rewrite H. reflexivity.
Defined.

(** *** The terminal only grows *)

Lemma send_command_terminal (g : ConfigGUI) :
  exists l, terminal (fst (send_command g)) = terminal g ++ l.
Proof.
  unfold send_command.
  destruct (is_connected g); simpl; [|exists []; apply eq_sym, app_nil_r].
  destruct (truthy (strip (command_var g)));
    [|exists []; apply eq_sym, app_nil_r].
  destruct (serial_connection g) as [ser|];
    [|exists []; apply eq_sym, app_nil_r].
  destruct (bind (utf8_encode (add_newline (strip (command_var g))))
              (write ser)) as [ser'|[]];
    try (exists []; apply eq_sym, app_nil_r).
  simpl. eexists. reflexivity.
Qed.

Lemma receive_iter_terminal (g : ConfigGUI) :
  terminal (fst (receive_iter g)) = terminal g.
Proof.
  destruct (receive_iter_effect g) as (q & _ & [[_ ->]|(s & s' & _ & _ & ->)]);
    reflexivity.
Qed.

Section Growth.

Variable serial_Serial : str -> Z -> Z -> result Serial.
Variable py_int : str -> option Z.

Lemma toggle_terminal (g : ConfigGUI) :
  exists l,
    terminal (fst (toggle_connection serial_Serial g)) = terminal g ++ l.
Proof.
  unfold toggle_connection. destruct (is_connected g); cbn [negb fst].
  - destruct (disconnect_disconnected g) as (_ & _ & _ & _ & -> & _).
    eexists. reflexivity.
  - unfold connect.
    destruct (serial_Serial (com_port g) (baud_rate g) 1%Z) as [ser|[]];
      simpl; try (exists []; apply eq_sym, app_nil_r).
    eexists. reflexivity.
Qed.

Lemma handle_terminal (ev : event) (a : App) :
  exists l,
    terminal (gui (handle serial_Serial py_int ev a))
    = terminal (gui a) ++ l.
Proof.
  unfold handle. destruct (destroyed a);
    [exists []; apply eq_sym, app_nil_r|].
  destruct ev as [| |s|s|s| | |]; simpl.
  - apply toggle_terminal.
  - apply send_command_terminal.
  - exists []. apply eq_sym, app_nil_r.
  - exists []. apply eq_sym, app_nil_r.
  - unfold on_baud_change. simpl.
    destruct (py_int s); exists []; apply eq_sym, app_nil_r.
  - destruct (is_connected (gui a)); [|exists []; apply eq_sym, app_nil_r].
    destruct (disconnect_disconnected (gui a)) as (_ & _ & _ & _ & -> & _).
    eexists. reflexivity.
  - rewrite receive_iter_terminal. exists []. apply eq_sym, app_nil_r.
  - rewrite run_after_terminal. eexists. reflexivity.
Qed.

(** X10. No event ever removes or changes a line of the terminal: after
    any sequence of events the terminal is what it was, followed by what
    was logged since. *)
Theorem terminal_only_grows (evs : list event) (a : App) :
  exists l,
    terminal (gui (run serial_Serial py_int evs a)) = terminal (gui a) ++ l.
Proof.
  revert a. induction evs as [|ev evs IH]; intros a; simpl.
  - exists []. apply eq_sym, app_nil_r.
  - destruct (IH (handle serial_Serial py_int ev a)) as [l2 ->].
    destruct (handle_terminal ev a) as [l1 ->].
    exists (l1 ++ l2). rewrite app_assoc. reflexivity.
Qed.

(** *** Closing the window *)

Lemma run_app (evs1 evs2 : list event) (a : App) :
  run serial_Serial py_int (evs1 ++ evs2) a
  = run serial_Serial py_int evs2 (run serial_Serial py_int evs1 a).
Proof. unfold run. apply fold_left_app. Qed.

Lemma handle_destroyed (ev : event) (a : App) :
  destroyed a = true -> handle serial_Serial py_int ev a = a.
Proof. intros H. unfold handle. rewrite H. reflexivity. Qed.

Lemma run_destroyed (evs : list event) (a : App) :
  destroyed a = true -> run serial_Serial py_int evs a = a.
Proof.
  intros H. induction evs as [|ev evs IH]; simpl; [reflexivity|].
  rewrite (handle_destroyed ev a H). exact IH.
Qed.

Lemma handle_closed_disconnected (ev : event) (a : App) :
  (destroyed a = true -> is_connected (gui a) = false) ->
  destroyed (handle serial_Serial py_int ev a) = true ->
  is_connected (gui (handle serial_Serial py_int ev a)) = false.
Proof.
  intros H. destruct (destroyed a) eqn:Ed.
  - rewrite (handle_destroyed ev a Ed). intros _. apply H. reflexivity.
  - unfold handle. rewrite Ed.
    destruct ev as [| |s|s|s| | |]; simpl; rewrite ?Ed; try discriminate.
    + unfold on_baud_change. simpl. destruct (py_int s); simpl; rewrite ?Ed;
        discriminate.
    + intros _. destruct (is_connected (gui a)) eqn:Ec; [|exact Ec].
      apply disconnect_disconnected.
Qed.

Lemma run_closed_disconnected (evs : list event) (a : App) :
  (destroyed a = true -> is_connected (gui a) = false) ->
  destroyed (run serial_Serial py_int evs a) = true ->
  is_connected (gui (run serial_Serial py_int evs a)) = false.
Proof.
  revert a. induction evs as [|ev evs IH]; intros a H; simpl; [exact H|].
  apply IH. apply handle_closed_disconnected. exact H.
Qed.

(** X11. Once the window has been closed it is destroyed and
    disconnected, no transport is in place, every transport ever opened has
    been closed, and nothing that follows changes anything. *)
Theorem closing_releases_the_port
  (before after : list event) (keywords : bool) (clock : str) :
  let a := run serial_Serial py_int (before ++ CloseWindow :: after)
             (app_init keywords clock) in
  destroyed a = true
  /\ is_connected (gui a) = false
  /\ serial_connection (gui a) = None
  /\ threads_started (gui a) = List.length (closed_ports (gui a))
  /\ Forall (fun s => is_open s = false) (closed_ports (gui a))
  /\ a = run serial_Serial py_int (before ++ [CloseWindow])
          (app_init keywords clock).
Proof.
  cbv zeta.
  change (CloseWindow :: after) with ([CloseWindow] ++ after).
  rewrite app_assoc, run_app.
  set (a1 := run serial_Serial py_int (before ++ [CloseWindow]) _).
  pose proof (run_consistent serial_Serial py_int (before ++ [CloseWindow])
                (app_init keywords clock) (init_consistent keywords clock))
    as Hcons.
  fold a1 in Hcons.
  assert (Hd : destroyed a1 = true).
  { subst a1. rewrite run_app. simpl.
    set (a0 := run serial_Serial py_int before _).
    unfold handle. destruct (destroyed a0) eqn:Ed; [exact Ed | reflexivity]. }
  assert (Hc : is_connected (gui a1) = false).
  { apply run_closed_disconnected; [discriminate | exact Hd]. }
  rewrite (run_destroyed after a1 Hd).
  destruct Hcons as (Hco & _ & _ & Ht & Hf). unfold coherent in Hco.
  rewrite Hc in Hco, Ht.
  destruct (serial_connection (gui a1)); [discriminate Hco|].
  rewrite Ht, Nat.add_0_r. repeat split; try assumption.
Qed.

(** *** The transport in place is open *)

Hypothesis opens :
  forall p baud t ser, serial_Serial p baud t = Ok ser -> is_open ser = true.

Lemma handle_line_open (ev : event) (a : App) :
  (forall ser, serial_connection (gui a) = Some ser -> is_open ser = true) ->
  forall ser,
    serial_connection (gui (handle serial_Serial py_int ev a)) = Some ser ->
    is_open ser = true.
Proof.
  intros H. unfold handle. destruct (destroyed a); [exact H|].
  destruct ev as [| |s|s|s| | |]; simpl.
  - unfold toggle_connection. destruct (is_connected (gui a)); cbn [negb fst].
    + destruct (disconnect_disconnected (gui a)) as (_ & -> & _).
      discriminate.
    + unfold connect.
      destruct (serial_Serial (com_port (gui a)) (baud_rate (gui a)) 1%Z)
        as [ser0|[]] eqn:Eo; simpl; try exact H.
      intros ser [= <-]. exact (opens _ _ _ _ Eo).
  - unfold send_command.
    destruct (is_connected (gui a)); simpl; [|exact H].
    destruct (truthy (strip (command_var (gui a)))); [|exact H].
    destruct (serial_connection (gui a)) as [ser0|] eqn:Es;
      [|simpl; rewrite Es; exact H].
    destruct (utf8_encode (add_newline (strip (command_var (gui a)))))
      as [data|e]; simpl.
    + unfold write. destruct (is_open ser0) eqn:Eo; simpl.
      * destruct (tx_fault ser0); simpl; rewrite ?Es; try exact H.
        intros ser [= <-]. exact Eo.
      * rewrite Es. exact H.
    + destruct e; simpl; rewrite Es; exact H.
  - exact H.
  - exact H.
  - unfold on_baud_change. simpl. destruct (py_int s); exact H.
  - destruct (is_connected (gui a)); [|exact H].
    destruct (disconnect_disconnected (gui a)) as (_ & -> & _). discriminate.
  - destruct (receive_iter_effect (gui a))
      as (q & _ & [[_ ->]|(s & s' & Es & L & ->)]); [exact H|].
    simpl. intros ser [= <-]. destruct L as (_ & _ & -> & _). exact (H s Es).
  - unfold run_after.
    assert (F : forall q g0,
               serial_connection
                 (fold_left (fun g' mp => log_message (fst mp) (snd mp) g')
                    q g0) = serial_connection g0).
    { induction q as [|mp q IH]; intros g0; simpl; [reflexivity|].
      rewrite IH. reflexivity. }
    rewrite F. exact H.
Qed.

(** X12. If every port the machine opens is handed over open, then
    between the callbacks of the main thread a transport held in
    [serial_connection] is open: [disconnect] closes a transport and drops
    it within one callback, and nothing else closes one.  (What a turn of
    the reader thread meets while [disconnect] is running is outside this
    statement.) *)
Theorem transport_in_place_is_open
  (evs : list event) (keywords : bool) (clock : str) (ser : Serial) :
  serial_connection
    (gui (run serial_Serial py_int evs (app_init keywords clock)))
  = Some ser ->
  is_open ser = true.
Proof.
  assert (G : forall a,
             (forall s, serial_connection (gui a) = Some s ->
                        is_open s = true) ->
             forall s,
               serial_connection (gui (run serial_Serial py_int evs a))
               = Some s -> is_open s = true).
  { induction evs as [|ev evs' IH]; intros a H; simpl; [exact H|].
    apply IH. apply handle_line_open. exact H. }
  apply G. simpl. discriminate.
Qed.

End Growth.


Section Selection.

Variable serial_Serial : str -> Z -> Z -> result Serial.
Variable py_int : str -> option Z.

(** X13. On a disconnected window, the port selected and the baud rate
    selected are what the next Connect opens and reports; a baud text that
    [int] rejects leaves the previous rate in force. *)
Theorem selection_used_by_next_connect
  (a : App) (sp sb : str) (ser : Serial) :
  destroyed a = false ->
  is_connected (gui a) = false ->
  let baud := match py_int sb with
              | Some n => n
              | None => baud_rate (gui a)
              end in
  serial_Serial sp baud 1%Z = Ok ser ->
  let a' := run serial_Serial py_int
              [SelectPort sp; SelectBaud sb; PressConnect] a in
  serial_connection (gui a') = Some ser
  /\ is_connected (gui a') = true
  /\ com_port (gui a') = sp
  /\ baud_rate (gui a') = baud
  /\ terminal (gui a')
     = terminal (gui a)
       ++ [mkLogEntry (now (gui a)) INFO
             (lit "Connected to " ++ sp ++ lit " at " ++ str_of_int baud
              ++ lit " baud")].
Proof.
  destruct a as [g cv bv d]. simpl. intros -> Hc Ho.
  unfold run, handle, on_com_port_change, on_baud_change, with_gui. simpl.
  destruct (py_int sb) as [n|]; simpl;
    unfold toggle_connection, connect; simpl; rewrite Hc; simpl;
    rewrite Ho; simpl; auto.
Qed.

End Selection.

Lemma selection_used_by_next_connect_witness :
  let a' := run (sim_port []) sim_int
              [SelectPort (lit "COM8"); SelectBaud (lit "9600"); PressConnect]
              (app_init true (lit "12:00:00")) in
  is_connected (gui a') = true
  /\ shown_texts (gui a') = [lit "Connected to COM8 at 9600 baud"].
Proof.
  destruct (selection_used_by_next_connect (sim_port []) sim_int
              (app_init true (lit "12:00:00")) (lit "COM8") (lit "9600")
              (mkSerial (lit "COM8") 9600%Z 1%Z true [] [] None)
              eq_refl eq_refl eq_refl) as (_ & H1 & _ & _ & H2).
  cbv zeta. split; [exact H1|]. unfold shown_texts. rewrite H2. reflexivity.
Defined.

Lemma transport_in_place_is_open_witness :
  is_open (sim_serial []) = true.
Proof.
  apply (transport_in_place_is_open (sim_port []) sim_int)
    with (evs := [PressConnect; ReaderTurn; RunQueued])
         (keywords := true) (clock := lit "12:00:00");
    [intros p baud t ser [= <-]; reflexivity | reflexivity].
Defined.

(** *** Lines *)


Lemma utf8_decode_ascii (h : error_handler) (l : bytes) :
  ascii_line l = true -> utf8_decode h l = Ok (map Byte.to_N l).
Proof.
  induction l as [|b l IH]; intros H; [reflexivity|].
  simpl in H. apply andb_true_iff in H. destruct H as [Hb Hl].
  apply N.ltb_lt in Hb.
  change (b :: l) with ([b] ++ l). rewrite (decode_ascii h l b Hb).
  rewrite (IH Hl). reflexivity.
Qed.

Lemma strip_truthy_blank (s : str) :
  truthy (strip s) = negb (forallb isspace s).
Proof.
  destruct (forallb isspace s) eqn:E.
  - rewrite (strip_all_space s E). reflexivity.
  - apply strip_truthy. intros H. apply rstrip_nil_iff in H.
    rewrite H in E. discriminate E.
Qed.

(** What the reader makes of a line of ASCII bytes. *)
Lemma entry_of_ascii (l : bytes) :
  ascii_line l = true ->
  entry_of (Some l)
  = if forallb isspace (map Byte.to_N l) then []
    else [(rstrip (map Byte.to_N l), [])].
Proof.
  intros Ha. unfold entry_of, decoded.
  assert (Hl : ascii_line (l ++ [LF]) = true).
  { unfold ascii_line in *. rewrite forallb_app, Ha. reflexivity. }
  rewrite (utf8_decode_ascii Ignore _ Hl), map_app.
  change (map Byte.to_N [LF]) with [NL].
  rewrite strip_truthy_blank, forallb_app, rstrip_app_space by reflexivity.
  simpl. rewrite andb_true_r.
  destruct (forallb isspace (map Byte.to_N l)); reflexivity.
Qed.

(** X14. A complete line of ASCII bytes that is empty or all white space
    is not queued, on any interpreter; on one whose [root.after] takes
    keyword arguments, any other line is queued without its terminator and
    its trailing white space (a carriage return in front of the newline
    goes too), its leading white space kept. *)
Theorem reader_ascii_line
  (g : ConfigGUI) (ser : Serial) (l : bytes) (rest : list rx_event) :
  is_connected g = true ->
  serial_connection g = Some ser ->
  is_open ser = true ->
  no_newline l = true ->
  ascii_line l = true ->
  after_keywords g = true \/ forallb isspace (map Byte.to_N l) = true ->
  rx ser = chunk (l ++ [LF]) ++ rest ->
  receive_iter g
  = (reader_state g ser rest
       (after_queue g
        ++ (if forallb isspace (map Byte.to_N l) then []
            else [(rstrip (map Byte.to_N l), [])])),
     None).
Proof.
  intros Hc Hs Ho Hn Ha Hkw Hrx.
  assert (Hq : after_keywords g = true \/ entry_of (Some l) = []).
  { destruct Hkw as [H|H]; [left; exact H | right].
    rewrite (entry_of_ascii l Ha), H. reflexivity. }
  pose proof (receive_iter_item g ser Hc Ho (Some l) rest (after_queue g) Hn
                Hq) as E.
  unfold wire_item in E. rewrite <- Hrx, (reader_state_here g ser Hs) in E.
  rewrite E, (entry_of_ascii l Ha). reflexivity.
Qed.

Lemma reader_ascii_line_witness :
  let ok := sim_serial (chunk (blit " OK" ++ [x0d] ++ [LF])) in
  let blank := sim_serial (chunk ([x0d] ++ [LF])) in
  queued_texts (fst (receive_iter (connected_with ok []))) = [lit " OK"]
  /\ queued_texts (fst (receive_iter (connected_with blank []))) = [].
Proof.
  intros ok blank. split.
  - rewrite (reader_ascii_line (connected_with ok []) ok (blit " OK" ++ [x0d])
               [] eq_refl eq_refl eq_refl eq_refl eq_refl (or_introl eq_refl)
               eq_refl).
    reflexivity.
  - rewrite (reader_ascii_line (connected_with blank []) blank [x0d]
               [] eq_refl eq_refl eq_refl eq_refl eq_refl (or_intror eq_refl)
               eq_refl).
    reflexivity.
Defined.

(** X15. On an interpreter whose [root.after] takes keyword arguments, or
    when every line is blank: when complete lines arrive, with pauses only
    between them, then once the reader has had a turn for each it has
    queued the lines that are not blank, in the order of arrival, each
    decoded and stripped on the right, and nothing is left waiting at the
    port; the loop is still running. *)
Theorem reader_queues_lines_in_order
  (g : ConfigGUI) (ser : Serial) (items : list (option bytes)) (fuel : nat) :
  is_connected g = true ->
  serial_connection g = Some ser ->
  is_open ser = true ->
  forallb item_ok items = true ->
  after_keywords g = true \/ entries_of items = [] ->
  rx ser = wire items ->
  (List.length items <= fuel)%nat ->
  receive_data fuel g
  = (reader_state g ser [] (after_queue g ++ entries_of items), None).
Proof.
  intros Hc Hs Ho Hok Hkw Hrx Hfuel.
  pose proof (receive_data_wire g ser Hc Ho fuel items (after_queue g) Hok
                Hkw) as E.
  rewrite <- Hrx, (reader_state_here g ser Hs) in E.
  rewrite E, (skipn_all2 items Hfuel), (firstn_all2 items Hfuel).
  reflexivity.
Qed.

Lemma reader_queues_lines_in_order_witness :
  let ser :=
    sim_serial (wire [Some (blit "one "); None; Some (blit "  ");
                      Some (blit " two")]) in
  queued_texts (fst (receive_data 4 (connected_with ser [])))
  = [lit "one"; lit " two"].
Proof.
  intros ser.
  rewrite (reader_queues_lines_in_order (connected_with ser []) ser
             [Some (blit "one "); None; Some (blit "  "); Some (blit " two")]
             4 eq_refl eq_refl eq_refl eq_refl (or_introl eq_refl) eq_refl
             (le_n 4)).
  reflexivity.
Defined.

(** X16. On an interpreter whose [root.after] does not take keyword
    arguments, the first line that is not blank ends the reader: after any
    blank lines and pauses the call [root.after(..., prefix=...)] raises
    [TypeError], which the [except] clause does not name, so it leaves the
    loop; the line has been read, nothing is queued, and the window is
    otherwise as it was, still connected. *)
Theorem reader_ends_without_keywords
  (g : ConfigGUI) (ser : Serial) (items : list (option bytes)) (l : bytes)
  (rest : list rx_event) (fuel : nat) :
  after_keywords g = false ->
  is_connected g = true ->
  serial_connection g = Some ser ->
  is_open ser = true ->
  forallb item_ok items = true ->
  entries_of items = [] ->
  no_newline l = true ->
  entry_of (Some l) <> [] ->
  rx ser = wire items ++ chunk (l ++ [LF]) ++ rest ->
  (List.length items < fuel)%nat ->
  receive_data fuel g
  = (reader_state g ser rest (after_queue g), Some (Escaped TypeError))
  /\ is_connected (fst (receive_data fuel g)) = true
  /\ after_queue (fst (receive_data fuel g)) = after_queue g
  /\ terminal (fst (receive_data fuel g)) = terminal g.
Proof.
  intros Hkw Hc Hs Ho Hok Hblank Hl Hne Hrx Hfuel.
  pose proof (receive_data_refused g ser Hc Ho items l rest (after_queue g)
                fuel Hok Hblank Hl Hkw Hne Hfuel) as E.
  rewrite <- Hrx, (reader_state_here g ser Hs) in E.
  rewrite E. cbn [fst]. unfold reader_state. simpl. auto.
Qed.

Lemma reader_ends_without_keywords_witness :
  let ser := sim_serial (wire [Some []; None] ++ chunk (blit "OK" ++ [LF])
                         ++ chunk (blit "more" ++ [LF])) in
  let g := set_after_keywords false (connected_with ser []) in
  snd (receive_data 3 g) = Some (Escaped TypeError)
  /\ after_queue (fst (receive_data 3 g)) = [].
Proof.
  intros ser g.
  assert (Hne : entry_of (Some (blit "OK")) <> []) by discriminate.
  destruct (reader_ends_without_keywords g ser [Some []; None] (blit "OK")
              (chunk (blit "more" ++ [LF])) 3 eq_refl eq_refl eq_refl eq_refl
              eq_refl eq_refl eq_refl Hne eq_refl (le_n 3)) as (E & _ & H & _).
  rewrite E. split; [reflexivity | exact H].
Defined.

Lemma reader_keeps_running_witness :
  snd (receive_data 5
         (connected_with
            (sim_serial (chunk [xff; xfe] ++ [Idle] ++ chunk (blit "AB"))) []))
  = None.
Proof.
  apply (reader_keeps_running 5 _
           (sim_serial (chunk [xff; xfe] ++ [Idle] ++ chunk (blit "AB"))));
    reflexivity.
Defined.
